(** * zk-verify-outmine: submission queue, failure classifiers and
      reconnection policy

    A shallow embedding of
    - [TransactionQueue] (the queue class: [submit], [processQueue],
      [clearQueue], [shutdown], [pause], [resume], [isNonceConflict]),
    - [isNonceConflictError], [categorizeTransactionError]
      (src/zkTransactionUtils.ts) and [categorizeError]
      (src/utils/zkFailureLogger.ts),
    - [attemptReconnection], [submitProofTransaction] and the connection
      gate of the [/verify-score] handler (server.ts),
    followed by the properties established about them.

    Conventions.
    - JavaScript strings are modelled as [string] (sequences of 8-bit
      characters); [toLowerCase] folds the ASCII letters, which is what
      every pattern of the classifiers is made of.
    - JavaScript numbers that only ever hold small integers (counters,
      delays, timestamps) are [nat] or [Z].
    - The asynchronous queue is modelled as a transition system: every
      suspended invocation of [processQueue] is a [Worker], every promise
      handed out by [submit] a [Caller], and the environment delivers the
      outcome of an attempt, the end of a delay or the firing of a timer as
      an [Input].  One [step] is one run-to-completion turn of the event
      loop.  Timers carry their delay but time itself is not measured: an
      armed timer may fire at any turn.
    - Listeners that others register on the queue (the server only logs)
      are taken not to throw; the listeners [submit] installs are part of
      the model. *)

From Stdlib Require Import ZArith String Ascii Bool Lia DecimalString.
From stdpp Require Import base option list strings gmap.

Open Scope string_scope.
Open Scope list_scope.

(* ===================================================================== *)
(** ** JavaScript string primitives                                       *)
(* ===================================================================== *)

Module JsString.

(** [c.toLowerCase()] on one ASCII character. *)
Definition lowerChar (c : ascii) : ascii :=
  let n := nat_of_ascii c in
  if (65 <=? n)%nat && (n <=? 90)%nat then ascii_of_nat (n + 32) else c.

(** [s.toLowerCase()]. *)
Fixpoint toLowerCase (s : string) : string :=
  match s with
  | EmptyString => EmptyString
  | String c t => String (lowerChar c) (toLowerCase t)
  end.

(** [s.startsWith(pat)]. *)
Fixpoint startsWith (s pat : string) : bool :=
  match pat, s with
  | EmptyString, _ => true
  | String _ _, EmptyString => false
  | String a p, String b t => Ascii.eqb a b && startsWith t p
  end.

(** [s.includes(pat)]: [pat] occurs at some offset of [s]. *)
Fixpoint includes (s pat : string) : bool :=
  startsWith s pat ||
  match s with
  | EmptyString => false
  | String _ t => includes t pat
  end.

(** [String(n)] for an integer-valued number. *)
Definition ofZ (n : Z) : string := NilZero.string_of_int (Z.to_int n).

End JsString.

(* ===================================================================== *)
(** ** Thrown values                                                      *)
(* ===================================================================== *)

(** What a [catch (error: any)] clause can receive, as far as the code
    looks at it: an [Error] object with its [message], some other value
    with its [String(...)] rendering (it has no [message]), or [null] /
    [undefined]. *)
Inductive JsError : Type :=
  | ErrorObj (message : string)
  | Thrown (rendering : string)
  | Nullish.

(** [!error]. *)
Definition falsy (e : JsError) : bool :=
  match e with
  | ErrorObj _ => false
  | Thrown s => String.eqb s ""
  | Nullish => true
  end.

(** [String(error)]. *)
Definition renderError (e : JsError) : string :=
  match e with
  | ErrorObj m => if String.eqb m "" then "Error" else "Error: " +:+ m
  | Thrown s => s
  | Nullish => "null"
  end.

(** [error.message || String(error)]. *)
Definition messageOrString (e : JsError) : string :=
  match e with
  | ErrorObj m => if String.eqb m "" then renderError e else m
  | _ => renderError e
  end.

(** [error.message || ""]. *)
Definition messageOrEmpty (e : JsError) : string :=
  match e with
  | ErrorObj m => m
  | _ => ""
  end.

(* ===================================================================== *)
(** ** Failure classifiers                                                *)
(* ===================================================================== *)

Module Classifier.
Import JsString.

Inductive FailureType : Type :=
  | VALIDATION_ERROR
  | SUBMISSION_ERROR
  | VERIFICATION_FAILED
  | TRANSACTION_ERROR
  | NETWORK_ERROR
  | UNKNOWN_ERROR.

(** [TransactionQueue.isNonceConflict] (case-sensitive). *)
Definition isNonceConflict (errorMessage : string) : bool :=
  includes errorMessage "Priority is too low" ||
  includes errorMessage "1014" ||
  includes errorMessage "Transaction is already in the pool" ||
  includes errorMessage "Invalid Transaction".

(** [isNonceConflictError] of zkTransactionUtils.ts; it reads
    [error.message] of an [Error]. *)
Definition isNonceConflictError (errorMessage : string) : bool :=
  let message := toLowerCase errorMessage in
  includes message "priority is too low" ||
  includes message "1014" ||
  includes message "transaction is already in the pool" ||
  includes message "invalid transaction" ||
  includes message "nonce".

(** The body of [categorizeTransactionError] once [lowerMessage] is
    known. *)
Definition categorizeLower (lowerMessage : string) : FailureType :=
  if includes lowerMessage "priority is too low" || includes lowerMessage "1014"
  then TRANSACTION_ERROR
  else if includes lowerMessage "invalid transaction"
  then TRANSACTION_ERROR
  else if includes lowerMessage "insufficient balance" || includes lowerMessage "payment"
  then TRANSACTION_ERROR
  else if includes lowerMessage "network" || includes lowerMessage "connection"
  then NETWORK_ERROR
  else if includes lowerMessage "timeout"
  then NETWORK_ERROR
  else if includes lowerMessage "proof" || includes lowerMessage "verification"
  then VERIFICATION_FAILED
  else if includes lowerMessage "missing" || includes lowerMessage "invalid"
  then VALIDATION_ERROR
  else if includes lowerMessage "submission" || includes lowerMessage "session"
  then SUBMISSION_ERROR
  else UNKNOWN_ERROR.

(** [categorizeTransactionError] of zkTransactionUtils.ts. *)
Definition categorizeTransactionError (error : JsError) : FailureType :=
  if falsy error then UNKNOWN_ERROR
  else categorizeLower (toLowerCase (messageOrString error)).

(** [categorizeError] of utils/zkFailureLogger.ts (the type written to
    the failure log). *)
Definition categorizeError (error : JsError) : FailureType :=
  let message := toLowerCase (messageOrEmpty error) in
  if includes message "missing" || includes message "invalid"
  then VALIDATION_ERROR
  else if includes message "verification" || includes message "proof"
  then VERIFICATION_FAILED
  else if includes message "transaction" || includes message "balance"
  then TRANSACTION_ERROR
  else if includes message "network" || includes message "timeout" ||
          includes message "connection"
  then NETWORK_ERROR
  else if includes message "submission" || includes message "session"
  then SUBMISSION_ERROR
  else UNKNOWN_ERROR.

(** The patterns [categorizeTransactionError] tests before it reaches
    its "proof"/"verification" rule. *)
Definition matchedBeforeProofRule (lowerMessage : string) : bool :=
  includes lowerMessage "priority is too low" ||
  includes lowerMessage "1014" ||
  includes lowerMessage "invalid transaction" ||
  includes lowerMessage "insufficient balance" ||
  includes lowerMessage "payment" ||
  includes lowerMessage "network" ||
  includes lowerMessage "connection" ||
  includes lowerMessage "timeout".

End Classifier.

(* ===================================================================== *)
(** ** The transaction queue                                              *)
(* ===================================================================== *)

Module Queue.
Import JsString Classifier.

(** Opaque payloads ([any] in the source), kept as their JSON text. *)
Definition Json : Type := string.

Inductive Network : Type := testnet | mainnet.
Inductive VkType : Type := registered | inline.

Record VerificationKey : Type := mkVk {
  vk_type : VkType;
  vk_data : Json;
  vk_hash : option string
}.

Record QueueItem : Type := mkItem {
  id : string;
  proof : Json;
  publicSignals : list Json;
  vk : VerificationKey;
  network : Network;
  timestamp : Z;
  retryCount : nat;
  maxRetries : Z
}.

Inductive TxStatus : Type := submitting | in_block | finalizing.

Record ActiveTransactionInfo : Type := mkActive {
  active_id : string;
  active_txHash : option string;
  active_timestamp : Z;
  active_retryCount : nat;
  active_status : TxStatus
}.

Record QueueStatus : Type := mkStatus {
  queueLength : nat;
  status_activeTransaction : option ActiveTransactionInfo;
  status_lastCompletedTimestamp : option Z;
  status_totalProcessed : nat;
  status_totalFailed : nat
}.

Record QueueConfig : Type := mkConfig {
  maxConcurrent : Z;
  retryAttempts : Z;
  retryDelay : Z;
  timeout : Z
}.

Record TransactionResult : Type := mkResult {
  success : bool;
  txHash : option string;
  error : option string;
  explorerUrl : option string
}.

(** The fields of the class [TransactionQueue]. *)
Record TransactionQueue : Type := mkQueue {
  queue : list QueueItem;
  activeTransaction : option ActiveTransactionInfo;
  isProcessing : bool;
  isShuttingDown : bool;
  lastCompletedTimestamp : option Z;
  totalProcessed : nat;
  totalFailed : nat;
  config : QueueConfig
}.

(** [new TransactionQueue(config, submitter)]. *)
Definition newQueue (cfg : QueueConfig) : TransactionQueue :=
  mkQueue [] None false false None 0 0 cfg.

(** Field assignments. *)
Definition set_queue (l : list QueueItem) (q : TransactionQueue) :=
  mkQueue l (activeTransaction q) (isProcessing q) (isShuttingDown q)
          (lastCompletedTimestamp q) (totalProcessed q) (totalFailed q) (config q).
Definition set_activeTransaction (a : option ActiveTransactionInfo) (q : TransactionQueue) :=
  mkQueue (queue q) a (isProcessing q) (isShuttingDown q)
          (lastCompletedTimestamp q) (totalProcessed q) (totalFailed q) (config q).
Definition set_isProcessing (b : bool) (q : TransactionQueue) :=
  mkQueue (queue q) (activeTransaction q) b (isShuttingDown q)
          (lastCompletedTimestamp q) (totalProcessed q) (totalFailed q) (config q).
Definition set_isShuttingDown (b : bool) (q : TransactionQueue) :=
  mkQueue (queue q) (activeTransaction q) (isProcessing q) b
          (lastCompletedTimestamp q) (totalProcessed q) (totalFailed q) (config q).
Definition set_lastCompletedTimestamp (t : option Z) (q : TransactionQueue) :=
  mkQueue (queue q) (activeTransaction q) (isProcessing q) (isShuttingDown q)
          t (totalProcessed q) (totalFailed q) (config q).
Definition set_totalProcessed (n : nat) (q : TransactionQueue) :=
  mkQueue (queue q) (activeTransaction q) (isProcessing q) (isShuttingDown q)
          (lastCompletedTimestamp q) n (totalFailed q) (config q).
Definition set_totalFailed (n : nat) (q : TransactionQueue) :=
  mkQueue (queue q) (activeTransaction q) (isProcessing q) (isShuttingDown q)
          (lastCompletedTimestamp q) (totalProcessed q) n (config q).

(** [item.retryCount++]. *)
Definition incrRetryCount (item : QueueItem) : QueueItem :=
  mkItem (id item) (proof item) (publicSignals item) (vk item) (network item)
         (timestamp item) (S (retryCount item)) (maxRetries item).

(** [getStatus]. *)
Definition getStatus (q : TransactionQueue) : QueueStatus :=
  mkStatus (length (queue q)) (activeTransaction q) (lastCompletedTimestamp q)
           (totalProcessed q) (totalFailed q).

(** What the queue does to the outside: the events it emits and the
    calls it makes on the injected submitter. *)
Inductive Effect : Type :=
  | enqueued (id : string) (queueLength : nat)
  | processing (id : string) (queueRemaining : nat)
  | completed_ (id : string) (result : TransactionResult)
  | completed (id : string) (result : TransactionResult)
  | retry (id : string) (retryCount : nat) (error : string)
  | failed_ (id : string) (error : JsError)
  | failed (id : string) (error : JsError)
  | queueCleared (cleared : nat) (activeInterrupted : bool)
  | shutdownInitiated (status : QueueStatus)
  | shutdownComplete (status : QueueStatus)
  | paused
  | resumed
  | submitterSubmit (item : QueueItem).

(** A suspended invocation of [processQueue]: at
    [await this.executeTransaction(item)] or at
    [await this.delay(this.config.retryDelay)]. *)
Inductive Worker : Type :=
  | AwaitingSubmitter (item : QueueItem)
  | AwaitingDelay (ms : Z).

Inductive PromiseState : Type :=
  | Pending
  | Resolved (result : TransactionResult)
  | Rejected (error : JsError).

(** [resolve]/[reject] on a promise: only the first settlement counts. *)
Definition settle (p new : PromiseState) : PromiseState :=
  match p with
  | Pending => new
  | _ => p
  end.

(** The promise returned by one call of [submit], with the timer and
    the two [once] listeners its executor installs. *)
Record Caller : Type := mkCaller {
  caller_id : string;
  promise : PromiseState;
  itemTimeout : option Z;       (* armed timer and its delay *)
  onCompleted : bool;           (* [once(`completed_${id}`)] still registered *)
  onFailed : bool               (* [once(`failed_${id}`)] still registered *)
}.

(** The queue object together with everything that is suspended on it. *)
Record World : Type := mkWorld {
  tq : TransactionQueue;
  workers : list Worker;
  callers : list Caller;
  shutdowns : list QueueStatus  (* [shutdown()] calls polling [isProcessing] *)
}.

Definition newWorld (cfg : QueueConfig) : World :=
  mkWorld (newQueue cfg) [] [] [].

(** [clearQueue]. *)
Definition clearQueue (q : TransactionQueue)
  : (nat * bool) * TransactionQueue * list Effect :=
  let cleared := length (queue q) in
  let activeInterrupted :=
    match activeTransaction q with Some _ => true | None => false end in
  ((cleared, activeInterrupted), set_queue [] q,
   [queueCleared cleared activeInterrupted]).

(** [this.queue.findIndex(i => i.id === id)]. *)
Fixpoint findIndex (ident : string) (l : list QueueItem) : option nat :=
  match l with
  | [] => None
  | i :: rest =>
      if String.eqb (id i) ident then Some 0
      else match findIndex ident rest with
           | Some n => Some (S n)
           | None => None
           end
  end.

(** What [activeTransaction] holds while [item] is being attempted. *)
Definition snapshotOf (item : QueueItem) : ActiveTransactionInfo :=
  mkActive (id item) None (timestamp item) (retryCount item) submitting.

(** The [finally] block of [processQueue]. *)
Definition finally (q : TransactionQueue) : TransactionQueue :=
  set_activeTransaction None (set_isProcessing false q).

(** The [while] loop of [processQueue] from its test up to the next
    [await] (the submitter has been called), or through [finally] when
    the test fails. *)
Definition processLoop (q : TransactionQueue)
  : TransactionQueue * option Worker * list Effect :=
  match queue q with
  | item :: rest =>
      if isShuttingDown q then (finally q, None, [])
      else
        (set_activeTransaction (Some (snapshotOf item)) (set_queue rest q),
         Some (AwaitingSubmitter item),
         [processing (id item) (length rest); submitterSubmit item])
  | [] => (finally q, None, [])
  end.

(** [processQueue()], up to its first [await]. *)
Definition processQueue (q : TransactionQueue)
  : TransactionQueue * option Worker * list Effect :=
  if isProcessing q || (length (queue q) =? 0)%nat || isShuttingDown q
  then (q, None, [])
  else processLoop (set_isProcessing true q).

(** Listener of [`completed_${id}`] installed by [submit]:
    [clearTimeout], then [resolve(result)].  ([removeListener] is given
    [reject], which is not the registered function, and removes
    nothing.) *)
Definition fireCompleted (ident : string) (r : TransactionResult) (c : Caller) : Caller :=
  if String.eqb (caller_id c) ident && onCompleted c
  then mkCaller (caller_id c) (settle (promise c) (Resolved r)) None false (onFailed c)
  else c.

(** Listener of [`failed_${id}`]. *)
Definition fireFailed (ident : string) (e : JsError) (c : Caller) : Caller :=
  if String.eqb (caller_id c) ident && onFailed c
  then mkCaller (caller_id c) (settle (promise c) (Rejected e)) None (onCompleted c) false
  else c.

(** [removeAllListeners()], as far as the callers are concerned. *)
Definition removeListeners (c : Caller) : Caller :=
  mkCaller (caller_id c) (promise c) (itemTimeout c) false false.

(** [timeout || this.config.timeout]. *)
Definition effectiveTimeout (t : option Z) (cfg : QueueConfig) : Z :=
  match t with
  | Some ms => if (ms =? 0)%Z then timeout cfg else ms
  | None => timeout cfg
  end.

Definition timeoutError (ms : Z) : JsError :=
  ErrorObj ("Transaction timeout after " +:+ ofZ ms +:+ "ms").

Definition shuttingDownError : JsError :=
  ErrorObj "Queue is shutting down, cannot accept new submissions".

(** [`tx_${Date.now()}_${Math.random().toString(36).substr(2, 9)}`];
    [suffix] is the random part. *)
Definition makeId (now : Z) (suffix : string) : string :=
  "tx_" +:+ ofZ now +:+ "_" +:+ suffix.

(** The worker at index [k] goes on as [ow], or is gone. *)
Definition continueWorker (k : nat) (ow : option Worker) (ws : list Worker) : list Worker :=
  match ow with
  | Some wk => <[k := wk]> ws
  | None => delete k ws
  end.

Inductive SubmitOutcome : Type :=
  | Threw (e : JsError)
  | Returned (caller : nat).   (* index of the new promise in [callers] *)

(** [submit(proof, publicSignals, vk, network, timeout?)]; [ident] is
    the generated id and [now] the second reading of the clock. *)
Definition submit (ident : string) (now : Z) (pf : Json) (signals : list Json)
    (key : VerificationKey) (net : Network) (t : option Z) (w : World)
  : SubmitOutcome * World * list Effect :=
  let q := tq w in
  if isShuttingDown q then (Threw shuttingDownError, w, [])
  else
    let item := mkItem ident pf signals key net now 0 (retryAttempts (config q)) in
    let q1 := set_queue (queue q ++ [item]) q in
    let '(q2, ow, eff) := processQueue q1 in
    let c := mkCaller ident Pending (Some (effectiveTimeout t (config q))) true true in
    (Returned (length (callers w)),
     mkWorld q2 (workers w ++ option_list ow) (callers w ++ [c]) (shutdowns w),
     enqueued ident (length (queue q1)) :: eff).

(** The attempt of worker [k] succeeded: the [try] branch after
    [await this.executeTransaction(item)], then the loop again. *)
Definition submitterResolves (k : nat) (r : TransactionResult) (now : Z) (w : World)
  : World * list Effect :=
  match workers w !! k with
  | Some (AwaitingSubmitter item) =>
      let q := tq w in
      let q1 := set_activeTransaction None
                  (set_totalProcessed (S (totalProcessed q))
                     (set_lastCompletedTimestamp (Some now) q)) in
      let cs := fireCompleted (id item) r <$> callers w in
      let '(q2, ow, eff) := processLoop q1 in
      (mkWorld q2 (continueWorker k ow (workers w)) cs (shutdowns w),
       completed_ (id item) r :: completed (id item) r :: eff)
  | _ => (w, [])
  end.

(** The attempt of worker [k] failed: the [catch] branch.  Reading
    [error.message] of [null] or [undefined] throws out of the handler,
    through [finally]. *)
Definition submitterRejects (k : nat) (e : JsError) (w : World)
  : World * list Effect :=
  match workers w !! k with
  | Some (AwaitingSubmitter item) =>
      let q := tq w in
      match e with
      | Nullish =>
          (mkWorld (finally q) (delete k (workers w)) (callers w) (shutdowns w), [])
      | _ =>
          let errorMsg := messageOrString e in
          if isNonceConflict errorMsg && (Z.of_nat (retryCount item) <? maxRetries item)%Z
          then
            let item' := incrRetryCount item in
            let q1 := set_activeTransaction None (set_queue (item' :: queue q) q) in
            (mkWorld q1 (<[k := AwaitingDelay (retryDelay (config q))]> (workers w))
                     (callers w) (shutdowns w),
             [retry (id item') (retryCount item') errorMsg])
          else
            let q1 := set_totalFailed (S (totalFailed q)) (set_activeTransaction None q) in
            let cs := fireFailed (id item) e <$> callers w in
            let '(q2, ow, eff) := processLoop q1 in
            (mkWorld q2 (continueWorker k ow (workers w)) cs (shutdowns w),
             failed_ (id item) e :: failed (id item) e :: eff)
      end
  | _ => (w, [])
  end.

(** The inter-retry delay of worker [k] is over. *)
Definition delayElapsed (k : nat) (w : World) : World * list Effect :=
  match workers w !! k with
  | Some (AwaitingDelay _) =>
      let '(q2, ow, eff) := processLoop (tq w) in
      (mkWorld q2 (continueWorker k ow (workers w)) (callers w) (shutdowns w), eff)
  | _ => (w, [])
  end.

(** The [setTimeout] callback of caller [c]. *)
Definition timerFires (c : nat) (w : World) : World * list Effect :=
  match callers w !! c with
  | Some cl =>
      match itemTimeout cl with
      | Some ms =>
          let q := tq w in
          match findIndex (caller_id cl) (queue q) with
          | Some index =>
              let cl' := mkCaller (caller_id cl)
                           (settle (promise cl) (Rejected (timeoutError ms)))
                           None (onCompleted cl) (onFailed cl) in
              (mkWorld (set_queue (delete index (queue q)) q) (workers w)
                       (<[c := cl']> (callers w)) (shutdowns w), [])
          | None =>
              let cl' := mkCaller (caller_id cl) (promise cl) None
                           (onCompleted cl) (onFailed cl) in
              (mkWorld q (workers w) (<[c := cl']> (callers w)) (shutdowns w), [])
          end
      | None => (w, [])
      end
  | None => (w, [])
  end.

(** [shutdown()], up to its first [await] or, when nothing is being
    processed, to its end. *)
Definition shutdown (w : World) : World * list Effect :=
  let q := set_isShuttingDown true (tq w) in
  let status := getStatus q in
  if isProcessing q
  then (mkWorld q (workers w) (callers w) (shutdowns w ++ [status]),
        [shutdownInitiated status])
  else (mkWorld q (workers w) (removeListeners <$> callers w) (shutdowns w),
        [shutdownInitiated status; shutdownComplete status]).

(** The pending [shutdown()] number [s] wakes from [delay(100)] and tests
    [isProcessing] again. *)
Definition shutdownPoll (s : nat) (w : World) : World * list Effect :=
  match shutdowns w !! s with
  | Some status =>
      if isProcessing (tq w) then (w, [])
      else (mkWorld (tq w) (workers w) (removeListeners <$> callers w)
                    (delete s (shutdowns w)),
            [shutdownComplete status])
  | None => (w, [])
  end.

(** [pause()]. *)
Definition pause (w : World) : World * list Effect :=
  (mkWorld (set_isProcessing false (tq w)) (workers w) (callers w) (shutdowns w),
   [paused]).

(** [resume()]. *)
Definition resume (w : World) : World * list Effect :=
  let q := tq w in
  if negb (isProcessing q) && negb (isShuttingDown q)
  then
    let '(q2, ow, eff) := processQueue q in
    (mkWorld q2 (workers w ++ option_list ow) (callers w) (shutdowns w),
     resumed :: eff)
  else (w, []).

(** One turn of the event loop: a call on the queue's interface, or the
    environment resuming something that was suspended. *)
Inductive Input : Type :=
  | Submit (stamp : Z) (suffix : string) (now : Z) (pf : Json)
           (signals : list Json) (key : VerificationKey) (net : Network)
           (t : option Z)
  | SubmitterResolves (k : nat) (r : TransactionResult) (now : Z)
  | SubmitterRejects (k : nat) (e : JsError)
  | DelayElapsed (k : nat)
  | TimerFires (c : nat)
  | ClearQueue
  | Shutdown
  | ShutdownPoll (s : nat)
  | Pause
  | Resume.

Definition step (w : World) (i : Input) : World * list Effect :=
  match i with
  | Submit stamp suffix now pf signals key net t =>
      let '(_, w', eff) := submit (makeId stamp suffix) now pf signals key net t w in
      (w', eff)
  | SubmitterResolves k r now => submitterResolves k r now w
  | SubmitterRejects k e => submitterRejects k e w
  | DelayElapsed k => delayElapsed k w
  | TimerFires c => timerFires c w
  | ClearQueue =>
      let '(_, q', eff) := clearQueue (tq w) in
      (mkWorld q' (workers w) (callers w) (shutdowns w), eff)
  | Shutdown => shutdown w
  | ShutdownPoll s => shutdownPoll s w
  | Pause => pause w
  | Resume => resume w
  end.

(** A whole history, with everything it emitted, oldest first. *)
Fixpoint run (w : World) (ins : list Input) : World * list Effect :=
  match ins with
  | [] => (w, [])
  | i :: rest =>
      let '(w1, eff1) := step w i in
      let '(w2, eff2) := run w1 rest in
      (w2, eff1 ++ eff2)
  end.

(** The ids given out by the [Submit] calls of a history, in order. *)
Definition submittedId (i : Input) : option string :=
  match i with
  | Submit stamp suffix _ _ _ _ _ _ => Some (makeId stamp suffix)
  | _ => None
  end.

Definition submittedIds (ins : list Input) : list string :=
  omap submittedId ins.

(** The ids that reached a terminal outcome ([completed] or [failed]),
    in the order in which they did. *)
Definition terminalId (e : Effect) : option string :=
  match e with
  | completed i _ => Some i
  | failed i _ => Some i
  | _ => None
  end.

Definition terminalIds (eff : list Effect) : list string :=
  omap terminalId eff.

(** The items whose attempt is in flight. *)
Definition inFlight (wk : Worker) : option QueueItem :=
  match wk with
  | AwaitingSubmitter item => Some item
  | AwaitingDelay _ => None
  end.

Definition inFlightItems (w : World) : list QueueItem :=
  omap inFlight (workers w).

Definition isPause (i : Input) : bool :=
  match i with Pause => true | _ => false end.

(** The id whose listeners or observers an effect notifies of a
    settlement. *)
Definition settledId (e : Effect) : option string :=
  match e with
  | completed_ i _ | completed i _ | failed_ i _ | failed i _ => Some i
  | _ => None
  end.

(** The ids waiting for their terminal outcome, in the order in which
    the loop will reach it: the attempts in flight, then the pending
    list. *)
Definition pendingIds (w : World) : list string :=
  id <$> (inFlightItems w ++ queue (tq w)).

(** What [isProcessing] and [activeTransaction] hold when the only
    invocation of [processQueue], if any, is suspended as [ow]. *)
Definition workerShape (q : TransactionQueue) (ow : option Worker) : Prop :=
  match ow with
  | None => isProcessing q = false /\ activeTransaction q = None
  | Some (AwaitingSubmitter item) =>
      isProcessing q = true /\ activeTransaction q = Some (snapshotOf item)
  | Some (AwaitingDelay _) => isProcessing q = true /\ activeTransaction q = None
  end.

(** The queue has at most one invocation of [processQueue] suspended on
    it, and its fields say what that invocation is doing. *)
Definition singleWorker (w : World) : Prop :=
  exists ow, workers w = option_list ow /\ workerShape (tq w) ow.

Definition inFlightOf (ow : option Worker) : list QueueItem :=
  omap inFlight (option_list ow).

(** [x] is neither pending nor being attempted. *)
Definition notAttempted (x : string) (wk : Worker) : Prop :=
  match wk with
  | AwaitingSubmitter item => id item <> x
  | AwaitingDelay _ => True
  end.

Definition absent (x : string) (w : World) : Prop :=
  Forall (fun item => id item <> x) (queue (tq w)) /\
  Forall (notAttempted x) (workers w).

(** Every promise for [x] in [cs] is still there in [cs'], in the same
    state. *)
Definition samePromises (x : string) (cs cs' : list Caller) : Prop :=
  forall c cl,
    cs !! c = Some cl -> caller_id cl = x ->
    exists cl', cs' !! c = Some cl' /\ caller_id cl' = x /\ promise cl' = promise cl.

End Queue.

(* ===================================================================== *)
(** ** The server: chain session, reconnection, request gate              *)
(* ===================================================================== *)

Module Server.
Import Queue.

Definition MAX_RECONNECTION_ATTEMPTS : nat := 10.
Definition BASE_RECONNECT_DELAY : Z := 1000.

(** The part of a [zkVerifySession] the server looks at:
    [provider.isConnected]. *)
Record Session : Type := mkSession { provider_isConnected : bool }.

(** The module-level variables [zkSession], [isReconnecting] and
    [reconnectionAttempts]. *)
Record Connection : Type := mkConnection {
  zkSession : option Session;
  isReconnecting : bool;
  reconnectionAttempts : nat
}.

(** [Math.min(BASE_RECONNECT_DELAY * Math.pow(2, reconnectionAttempts - 1), 30000)],
    as [attemptReconnection] evaluates it, that is after the increment
    ([reconnectionAttempts >= 1], so the power is an integer). *)
Definition reconnectDelay (attempts : nat) : Z :=
  Z.min (BASE_RECONNECT_DELAY * 2 ^ (Z.of_nat attempts - 1)) 30000.

(** [attemptReconnection()], up to its [await] of the delay: the new
    variables and the delay it waits for, or [None] when it returns at
    one of its two guards. *)
Definition attemptReconnection (c : Connection) : Connection * option Z :=
  if isReconnecting c then (c, None)
  else if (MAX_RECONNECTION_ATTEMPTS <=? reconnectionAttempts c)%nat then (c, None)
  else
    let attempts := S (reconnectionAttempts c) in
    (mkConnection (zkSession c) true attempts, Some (reconnectDelay attempts)).

(** After the delay, [initializeZkSession()] succeeded. *)
Definition reconnectionSucceeded (s : Session) (c : Connection) : Connection :=
  mkConnection (Some s) false 0.

(** After the delay, [initializeZkSession()] threw: the [catch] branch,
    which also schedules [attemptReconnection] again. *)
Definition reconnectionFailed (c : Connection) : Connection :=
  mkConnection (zkSession c) false (reconnectionAttempts c).

(** The ['disconnected'] listener of [monitorSessionConnection]. *)
Definition onDisconnected (c : Connection) : Connection * option Z :=
  attemptReconnection (mkConnection None (isReconnecting c) (reconnectionAttempts c)).

(** The delays waited for when every attempt fails: each failure
    re-enters [attemptReconnection] through [setTimeout(..., 0)].
    [fuel] bounds the number of attempts looked at. *)
Fixpoint failingReconnections (fuel : nat) (c : Connection) : list Z :=
  match fuel with
  | 0 => []
  | S fuel' =>
      match attemptReconnection c with
      | (c1, Some delay) => delay :: failingReconnections fuel' (reconnectionFailed c1)
      | (_, None) => []
      end
  end.

(** [zkSession && zkSession.provider.isConnected]. *)
Definition sessionAvailable (c : Connection) : bool :=
  match zkSession c with
  | Some s => provider_isConnected s
  | None => false
  end.

Definition sessionNotAvailable : JsError := ErrorObj "zkVerify session not available".

(** The guard of [submitProofTransaction], the submitter the server
    gives to the queue: [Some e] when it throws [e] before anything is
    handed to the chain session, [None] when the proof is sent. *)
Definition submitProofTransaction (c : Connection) : option JsError :=
  if sessionAvailable c then None else Some sessionNotAvailable.

(** [validateProofAndSignals], applied to the proof as
    [sanitizeProofData] returned it; [None] stands for a falsy [proof], for
    [publicSignals] that is not an array.  The result is the [error] of
    an invalid request. *)
Definition validateProofAndSignals (pf : option Json) (signals : option (list Json))
  : option string :=
  match pf with
  | None => Some "Proof is required"
  | Some _ =>
      match signals with
      | None => Some "Public signals must be an array"
      | Some [] => Some "Public signals array is empty"
      | Some (_ :: _) => None
      end
  end.

Record ServerState : Type := mkServer {
  connection : Connection;
  transactionQueue : option World;
  cachedVK : VerificationKey;
  serverNetwork : Network
}.

(** The [/verify-score] handler up to the point where it either replies
    or awaits [transactionQueue.submit(...)].  (The [retryAfter] field of
    the 503 reply is left out.) *)
Inductive HandlerStep : Type :=
  | Reply (status : nat) (error : string)
  | AwaitsSubmit (outcome : SubmitOutcome) (w : World) (eff : list Effect).

Definition verifyScore (stamp : Z) (suffix : string) (now : Z)
    (pf : option Json) (signals : option (list Json)) (srv : ServerState)
  : HandlerStep :=
  match validateProofAndSignals pf signals with
  | Some err => Reply 400 err
  | None =>
      match transactionQueue srv with
      | None => Reply 503 "Service unavailable - transaction queue not initialized"
      | Some w =>
          if negb (sessionAvailable (connection srv)) then
            if isReconnecting (connection srv)
            then Reply 503 "Service temporarily unavailable - reconnecting to zkVerify"
            else Reply 503 "Service unavailable - zkVerify session not initialized"
          else
            let '(o, w', eff) :=
              submit (makeId stamp suffix) now (default "" pf) (default [] signals)
                     (cachedVK srv) (serverNetwork srv) None w in
            AwaitsSubmit o w' eff
      end
  end.

End Server.

(* ===================================================================== *)
(** ** Concrete configurations used in the examples                       *)
(* ===================================================================== *)

Module Examples.
Import Queue Server.

(** The configuration of the queue's test suite. *)
Definition testConfig : QueueConfig := mkConfig 1 3 100 5000.

Definition vkHash : VerificationKey := mkVk registered "vk-hash" None.

Definition okResult : TransactionResult :=
  mkResult true (Some "0x123") None (Some "https://example.com/0x123").

(** [queue.submit('proof', ['signal'], vk, 'testnet')] with the clock at
    [stamp] and the random suffix [suffix]. *)
Definition submitAt (stamp : Z) (suffix : string) : Input :=
  Submit stamp suffix stamp "proof" ["signal"] vkHash testnet None.

Definition itemOf (stamp : Z) (suffix : string) (retries : nat) : QueueItem :=
  mkItem (makeId stamp suffix) "proof" ["signal"] vkHash testnet stamp retries 3.

Definition insufficientFunds : JsError :=
  ErrorObj "Invalid Transaction: insufficient funds".

Definition priorityTooLow : JsError := ErrorObj "Priority is too low".

(** Four submissions in a row: the first is being attempted, three are
    pending. *)
Definition threePendingOneActive : World :=
  fst (run (newWorld testConfig)
           [submitAt 1 "a"; submitAt 2 "b"; submitAt 3 "c"; submitAt 4 "d"]).



End Examples.

(* ===================================================================== *)
(** ** Observations on what the queue emits                               *)
(* ===================================================================== *)

Module Observers.
Import Queue.

(** The id announced by a [completed] event. *)
Definition completedId (e : Effect) : option string :=
  match e with
  | completed i _ => Some i
  | _ => None
  end.

(** The id announced by a [failed] event. *)
Definition failedId (e : Effect) : option string :=
  match e with
  | failed i _ => Some i
  | _ => None
  end.

(** The count carried by a [retry] event. *)
Definition retryNumber (e : Effect) : option nat :=
  match e with
  | retry _ n _ => Some n
  | _ => None
  end.

(** The effects with which an attempt starts. *)
Definition startsAttempt (e : Effect) : bool :=
  match e with
  | processing _ _ | submitterSubmit _ => true
  | _ => false
  end.

(** Every item the queue holds, pending or in flight. *)
Definition heldItems (w : World) : list QueueItem :=
  inFlightItems w ++ queue (tq w).

(** No timer is armed for a settled promise. *)
Definition timerOnlyIfPending (cl : Caller) : Prop :=
  promise cl = Pending \/ itemTimeout cl = None.

(** A settled promise is accounted for by what was emitted: a result by a
    [completed_<id>] event for the caller's id, an error by a
    [failed_<id>] event for it or by the timeout. *)
Definition justified (eff : list Effect) (cl : Caller) : Prop :=
  match promise cl with
  | Pending => True
  | Resolved r => completed_ (caller_id cl) r ∈ eff
  | Rejected e => failed_ (caller_id cl) e ∈ eff \/ exists ms, e = timeoutError ms
  end.

End Observers.

(* ===================================================================== *)
(** ** The HTTP surface of the server                                     *)
(* ===================================================================== *)

Module Http.
Import Classifier Queue Server.

(** The [status] of [GET /health]. *)
Inductive HealthStatus : Type := healthy | degraded | unhealthy.

Definition healthStatus (c : Connection) : HealthStatus :=
  if sessionAvailable c then healthy
  else if isReconnecting c then degraded
  else unhealthy.

(** [status === 'healthy' ? 200 : 503]. *)
Definition healthStatusCode (c : Connection) : nat :=
  match healthStatus c with
  | healthy => 200
  | _ => 503
  end.

(** The reply of the [catch] branch of [/verify-score]: status,
    [errorType], and whether [retryable: true] is part of the body. *)
Record ErrorReply : Type := mkErrorReply {
  reply_status : nat;
  reply_errorType : FailureType;
  reply_retryable : bool
}.

Definition errorReply (e : JsError) : ErrorReply :=
  let errorType := categorizeTransactionError e in
  match errorType with
  | TRANSACTION_ERROR | NETWORK_ERROR => mkErrorReply 503 errorType true
  | _ => mkErrorReply 500 errorType false
  end.

(** The pieces of code that change [zkSession], [isReconnecting] and
    [reconnectionAttempts], each run as one turn: the ['disconnected'] and
    ['connected'] listeners of [monitorSessionConnection], the two ways
    [attemptReconnection] goes on after its delay, and the call of
    [attemptReconnection] that its [catch] branch schedules. *)
Inductive ConnectionEvent : Type :=
  | ProviderDisconnected
  | ProviderConnected
  | SessionInitialized (s : Session)
  | SessionInitFailed
  | ScheduledAttempt.

Definition connectionStep (c : Connection) (ev : ConnectionEvent) : Connection * option Z :=
  match ev with
  | ProviderDisconnected => onDisconnected c
  | ProviderConnected => (mkConnection (zkSession c) false 0, None)
  | SessionInitialized s => (reconnectionSucceeded s c, None)
  | SessionInitFailed => (reconnectionFailed c, None)
  | ScheduledAttempt => attemptReconnection c
  end.

(** A sequence of such turns, with the delays that were started. *)
Fixpoint connectionRun (c : Connection) (evs : list ConnectionEvent)
  : Connection * list Z :=
  match evs with
  | [] => (c, [])
  | ev :: rest =>
      let '(c1, d) := connectionStep c ev in
      let '(c2, ds) := connectionRun c1 rest in
      (c2, option_list d ++ ds)
  end.

End Http.

(* ===================================================================== *)
(** ** Network configuration (src/networkConfig.ts)                       *)
(* ===================================================================== *)

Module NetworkConfig.

Record NetworkConfig : Type := mkNetworkConfig {
  name : string;
  websocket : string;
  rpc : string;
  explorer : string;
  seedPhraseEnvVar : string;
  faucetUrl : option string
}.

Definition testnetConfig : NetworkConfig :=
  mkNetworkConfig "Volta Testnet"
    "wss://zkverify-volta-rpc.zkverify.io"
    "https://zkverify-volta-rpc.zkverify.io"
    "https://zkverify-testnet.subscan.io"
    "ZKVERIFY_TESTNET_SEED_PHRASE"
    (Some "https://faucet.zkverify.io/").

Definition mainnetConfig : NetworkConfig :=
  mkNetworkConfig "zkVerify Mainnet"
    "wss://zkverify-rpc.zkverify.io"
    "https://zkverify-rpc.zkverify.io"
    "https://zkverify.subscan.io"
    "ZKVERIFY_MAINNET_SEED_PHRASE"
    None.

(** [process.env]. *)
Definition Env : Type := gmap string string.

(** [process.env[k] || d]: an unset and an empty variable both give [d]. *)
Definition envOr (env : Env) (k d : string) : string :=
  match env !! k with
  | Some v => if String.eqb v "" then d else v
  | None => d
  end.

(** [process.env[k] || undefined]. *)
Definition envTruthy (env : Env) (k : string) : option string :=
  match env !! k with
  | Some v => if String.eqb v "" then None else Some v
  | None => None
  end.

(** What [NETWORKS[key]] evaluates to for an arbitrary string: one of the
    two entries of the table, a member inherited from [Object.prototype]
    (a truthy value without the fields of a configuration), or
    [undefined]. *)
Inductive Member : Type :=
  | Own (c : NetworkConfig)
  | Inherited
  | Undefined.

Definition objectPrototypeKeys : list string :=
  ["constructor"; "__defineGetter__"; "__defineSetter__"; "hasOwnProperty";
   "__lookupGetter__"; "__lookupSetter__"; "isPrototypeOf";
   "propertyIsEnumerable"; "toString"; "valueOf"; "__proto__";
   "toLocaleString"].

Definition NETWORKS (key : string) : Member :=
  if String.eqb key "testnet" then Own testnetConfig
  else if String.eqb key "mainnet" then Own mainnetConfig
  else if existsb (String.eqb key) objectPrototypeKeys then Inherited
  else Undefined.

(** The result of [getNetworkConfig()]: a configuration, the object with
    only [websocket] and [rpc] that the spread of an inherited member
    leaves, or the error thrown. *)
Inductive ConfigResult : Type :=
  | Config (c : NetworkConfig)
  | Overrides (websocket rpc : option string)
  | ConfigError (e : JsError).

Definition getNetworkConfig (env : Env) : ConfigResult :=
  let network := envOr env "ZKVERIFY_NETWORK" "testnet" in
  match NETWORKS network with
  | Undefined =>
      ConfigError (ErrorObj ("Invalid network: " +:+ network +:+
                             ". Must be 'testnet' or 'mainnet'"))
  | Own config =>
      Config (mkNetworkConfig (name config)
                (envOr env "ZKVERIFY_RPC_WSS" (websocket config))
                (envOr env "ZKVERIFY_RPC_HTTPS" (rpc config))
                (explorer config) (seedPhraseEnvVar config) (faucetUrl config))
  | Inherited =>
      Overrides (envTruthy env "ZKVERIFY_RPC_WSS") (envTruthy env "ZKVERIFY_RPC_HTTPS")
  end.

(** [NETWORKS[network]] for a [network] of type [Network]. *)
Definition networkEntry (n : Queue.Network) : NetworkConfig :=
  match n with
  | Queue.testnet => testnetConfig
  | Queue.mainnet => mainnetConfig
  end.

(** [getSeedPhrase(network)]: the seed phrase, or the error thrown. *)
Definition getSeedPhrase (n : Queue.Network) (env : Env) : string + JsError :=
  let config := networkEntry n in
  match envTruthy env (seedPhraseEnvVar config) with
  | Some seedPhrase => inl seedPhrase
  | None => inr (ErrorObj (seedPhraseEnvVar config +:+ " not found in environment"))
  end.

End NetworkConfig.

(* ===================================================================== *)
(** ** The classifier as the documents describe it                        *)
(* ===================================================================== *)

(** These two definitions follow the words of the specification (section
    4.2, rules 1 to 4) and of PHASE2_BUG_FIXES.md (section 4, the
    replacement it gives for [isNonceConflict]); they are what the code is
    compared with, not code that runs. *)
Module Documented.
Import JsString.

(** A nonce or priority race: rules 1 and 2. *)
Definition specNonceConflict (errorMessage : string) : bool :=
  let lowerMessage := toLowerCase errorMessage in
  includes lowerMessage "priority is too low" ||
  includes lowerMessage "invalid transaction" && includes lowerMessage "nonce" ||
  includes lowerMessage "stale nonce" ||
  includes lowerMessage "nonce too low" ||
  includes lowerMessage "nonce mismatch" ||
  includes lowerMessage "transaction is already in the pool" ||
  includes lowerMessage "1014".

(** Some rule placed before the "proof"/"verification" rule matches:
    rules 1 to 4. *)
Definition specMatchedBeforeProofRule (errorMessage : string) : bool :=
  let lowerMessage := toLowerCase errorMessage in
  specNonceConflict errorMessage ||
  includes lowerMessage "insufficient balance" ||
  includes lowerMessage "payment" ||
  includes lowerMessage "network" ||
  includes lowerMessage "connection" ||
  includes lowerMessage "timeout".

End Documented.

(* ===================================================================== *)
(** * Properties                                                          *)
(* ===================================================================== *)

(** ** The failure classifiers *)

Module ClassifierSpec.
Import JsString Classifier.

Section Priority.
Variable e : JsError.
Let m := toLowerCase (messageOrString e).
Let l := toLowerCase (messageOrEmpty e).

Lemma categorize_unfold :
  falsy e = false -> categorizeTransactionError e = categorizeLower m.
Proof. unfold categorizeTransactionError. intros ->. reflexivity. Qed.

Lemma matchedBefore_split :
  matchedBeforeProofRule m = false ->
  includes m "priority is too low" || includes m "1014" = false /\
  includes m "invalid transaction" = false /\
  includes m "insufficient balance" || includes m "payment" = false /\
  includes m "network" || includes m "connection" = false /\
  includes m "timeout" = false.
Proof.
  unfold matchedBeforeProofRule. intros H.
  repeat (apply orb_false_elim in H; destruct H as [H ?]).
  repeat split; try assumption; apply orb_false_intro; assumption.
Qed.

Lemma categorizeLower_unmatched :
  matchedBeforeProofRule m = false ->
  categorizeLower m =
    if includes m "proof" || includes m "verification" then VERIFICATION_FAILED
    else if includes m "missing" || includes m "invalid" then VALIDATION_ERROR
    else if includes m "submission" || includes m "session" then SUBMISSION_ERROR
    else UNKNOWN_ERROR.
Proof.
  intros H. destruct (matchedBefore_split H) as (H1 & H2 & H3 & H4 & H5).
  unfold categorizeLower. rewrite H1, H2, H3, H4, H5. reflexivity.
Qed.

Lemma categorizeLower_matched :
  matchedBeforeProofRule m = true ->
  categorizeLower m = TRANSACTION_ERROR \/ categorizeLower m = NETWORK_ERROR.
Proof.
  unfold matchedBeforeProofRule, categorizeLower. intros H.
  destruct (includes m "priority is too low"); [left; reflexivity|].
  destruct (includes m "1014"); [left; reflexivity|].
  destruct (includes m "invalid transaction"); [left; reflexivity|].
  destruct (includes m "insufficient balance"); [left; reflexivity|].
  destruct (includes m "payment"); [left; reflexivity|].
  destruct (includes m "network"); [right; reflexivity|].
  destruct (includes m "connection"); [right; reflexivity|].
  destruct (includes m "timeout"); [right; reflexivity|].
  discriminate H.
Qed.

(** C6, as the code has it.  [categorizeTransactionError] takes the first
    rule that matches: a message that none of its rules placed before the
    "proof"/"verification" rule matches ("priority is too low", "1014",
    "invalid transaction" with or without "nonce", "insufficient balance",
    "payment", "network", "connection", "timeout"), and that contains
    "proof" or "verification", is VERIFICATION_FAILED whether or not it
    also contains "missing" or "invalid"; and the result is
    VALIDATION_ERROR exactly when no earlier rule (the
    "proof"/"verification" rule included) matches and the message
    contains "missing" or "invalid".  [categorizeError], the classifier of
    the failure log, has the other order: "missing" or "invalid" gives
    VALIDATION_ERROR whatever else the message contains, and the result
    is VERIFICATION_FAILED exactly when neither occurs and the message
    contains "verification" or "proof". *)
Theorem proof_rule_before_validation_rule :
  falsy e = false ->
  ((matchedBeforeProofRule m = false ->
    includes m "proof" || includes m "verification" = true ->
    categorizeTransactionError e = VERIFICATION_FAILED) /\
   (categorizeTransactionError e = VALIDATION_ERROR <->
    matchedBeforeProofRule m = false /\
    includes m "proof" || includes m "verification" = false /\
    includes m "missing" || includes m "invalid" = true)) /\
  ((includes l "missing" || includes l "invalid" = true ->
    categorizeError e = VALIDATION_ERROR) /\
   (categorizeError e = VERIFICATION_FAILED <->
    includes l "missing" || includes l "invalid" = false /\
    includes l "verification" || includes l "proof" = true)).
Proof.
  intros Hf. split.
  - rewrite (categorize_unfold Hf). split.
    + intros Hm Hp. rewrite (categorizeLower_unmatched Hm), Hp. reflexivity.
    + split.
      * intros Hv. destruct (matchedBeforeProofRule m) eqn:Hm.
        -- destruct (categorizeLower_matched Hm) as [Ht|Ht];
             rewrite Ht in Hv; discriminate Hv.
        -- rewrite (categorizeLower_unmatched Hm) in Hv.
           destruct (includes m "proof" || includes m "verification");
             [discriminate Hv|].
           destruct (includes m "missing" || includes m "invalid");
             [auto|].
           destruct (includes m "submission" || includes m "session");
             discriminate Hv.
      * intros (Hm & Hp & Hv).
        rewrite (categorizeLower_unmatched Hm), Hp, Hv. reflexivity.
  - unfold categorizeError. fold l. split.
    + intros ->. reflexivity.
    + destruct (includes l "missing" || includes l "invalid").
      { split; [discriminate|intros [H _]; discriminate H]. }
      destruct (includes l "verification" || includes l "proof").
      { split; auto. }
      split; [|intros [_ H]; discriminate H].
      destruct (includes l "transaction" || includes l "balance"); [discriminate|].
      destruct (includes l "network" || includes l "timeout" || includes l "connection");
        [discriminate|].
      destruct (includes l "submission" || includes l "session"); discriminate.
Qed.
End Priority.

Lemma proof_rule_before_validation_rule_witness :
  categorizeTransactionError (ErrorObj "Invalid proof: missing field") = VERIFICATION_FAILED /\
  categorizeError (ErrorObj "Invalid proof: missing field") = VALIDATION_ERROR.
Proof.
  destruct (proof_rule_before_validation_rule (ErrorObj "Invalid proof: missing field"))
    as [[Ht _] [He _]]; [reflexivity|].
  split; [apply Ht; reflexivity|apply He; reflexivity].
Defined.

(** C6, as stated, fails twice.  "Invalid proof: missing field" contains
    "proof" and matches none of the rules the specification places before
    the "proof"/"verification" rule, yet [categorizeError] answers
    VALIDATION_ERROR.  "Invalid Transaction: proof rejected" contains
    "proof" and no "nonce", so none of those rules matches it either, yet
    [categorizeTransactionError] answers TRANSACTION_ERROR. *)
Lemma proof_rule_counterexample :
  ~ (Documented.specMatchedBeforeProofRule "Invalid proof: missing field" = false ->
     includes (toLowerCase "Invalid proof: missing field") "proof" = true ->
     categorizeError (ErrorObj "Invalid proof: missing field") = VERIFICATION_FAILED) /\
  ~ (Documented.specMatchedBeforeProofRule "Invalid Transaction: proof rejected" = false ->
     includes (toLowerCase "Invalid Transaction: proof rejected") "proof" = true ->
     categorizeTransactionError (ErrorObj "Invalid Transaction: proof rejected")
     = VERIFICATION_FAILED).
Proof.
  split; intros H; specialize (H eq_refl eq_refl); vm_compute in H; discriminate H.
Qed.

(** The type written to the failure log is computed by another function,
    [categorizeError], whose first rule is the "missing"/"invalid" one. *)
Example categorizeError_invalid_proof :
  categorizeError (ErrorObj "Invalid proof: missing field") = VALIDATION_ERROR.
Proof. reflexivity. Qed.

(** The classifiers on "Invalid Transaction: insufficient funds": the
    message contains "invalid transaction" and no "nonce", and both
    nonce-conflict tests answer [true]. *)
Theorem bare_invalid_transaction_is_nonce_conflict :
  let msg := "Invalid Transaction: insufficient funds" in
  includes (toLowerCase msg) "invalid transaction" = true /\
  includes (toLowerCase msg) "nonce" = false /\
  isNonceConflict msg = true /\
  isNonceConflictError msg = true /\
  categorizeTransactionError (ErrorObj msg) = TRANSACTION_ERROR.
Proof. repeat split; reflexivity. Qed.

End ClassifierSpec.

(** ** Reconnection back-off *)

Module ServerSpec.
Import Queue Server.

Lemma reconnectDelay_small (n : nat) :
  (1 <= n <= 5)%nat -> reconnectDelay n = (1000 * 2 ^ (Z.of_nat n - 1))%Z.
Proof.
  intros H. unfold reconnectDelay, BASE_RECONNECT_DELAY.
  assert (n = 1 \/ n = 2 \/ n = 3 \/ n = 4 \/ n = 5)%nat as Hn by lia.
  destruct Hn as [-> | [-> | [-> | [-> | ->]]]]; reflexivity.
Qed.





(** Ten failures in a row from a fresh connection, and nothing after. *)
Example failingReconnections_fresh :
  failingReconnections 50 (mkConnection None false 0)
  = [1000; 2000; 4000; 8000; 16000; 30000; 30000; 30000; 30000; 30000]%Z.
Proof. reflexivity. Qed.

End ServerSpec.

(** ** The transaction queue *)

Module QueueSpec.
Import JsString Classifier Queue Examples.

Ltac unfold_step :=
  unfold step, submit, submitterResolves, submitterRejects, delayElapsed,
    timerFires, shutdown, shutdownPoll, pause, resume, clearQueue,
    processQueue, processLoop, finally in *.

Ltac crush_step := unfold_step; repeat case_match; simplify_eq/=; auto.

(** The two ways through the loop of [processQueue]. *)
Lemma processLoop_cases (q : TransactionQueue) :
  (exists item rest,
      queue q = item :: rest /\ isShuttingDown q = false /\
      processLoop q
      = (set_activeTransaction (Some (snapshotOf item)) (set_queue rest q),
         Some (AwaitingSubmitter item),
         [processing (id item) (length rest); submitterSubmit item])) \/
  ((queue q = [] \/ isShuttingDown q = true) /\
   processLoop q = (finally q, None, [])).
Proof.
  unfold processLoop. destruct (queue q) as [|item rest] eqn:Hq.
  - right. auto.
  - destruct (isShuttingDown q) eqn:Hs.
    + right. auto.
    + left. exists item, rest. auto.
Qed.

(** *** Shutdown *)

Lemma step_keeps_shutting_down (w : World) (i : Input) :
  isShuttingDown (tq w) = true -> isShuttingDown (tq (fst (step w i))) = true.
Proof. intros H. destruct i; crush_step. Qed.

Lemma run_keeps_shutting_down (ins : list Input) (w : World) :
  isShuttingDown (tq w) = true -> isShuttingDown (tq (fst (run w ins))) = true.
Proof.
  revert w. induction ins as [|i ins IH]; intros w H; [exact H|].
  cbn [run]. pose proof (step_keeps_shutting_down w i H) as H1.
  destruct (step w i) as [w1 eff1]. specialize (IH w1 H1).
  destruct (run w1 ins) as [w2 eff2]. exact IH.
Qed.

(** C7.  [shutdown()] raises [isShuttingDown] at once, whether or not
    something is still being processed, and nothing lowers it again: after
    any further history, [submit] throws the shutting-down error, leaves
    the queue and everything suspended on it as they are and emits
    nothing; a second [shutdown()] leaves the fields of the queue as they
    are, and completes at once when nothing is being processed. *)
Theorem shutdown_rejects_submit (w : World) (ins : list Input) :
  let w1 := fst (shutdown w) in
  let w2 := fst (run w1 ins) in
  isShuttingDown (tq w1) = true /\
  isShuttingDown (tq w2) = true /\
  (forall ident now pf signals key net t,
     submit ident now pf signals key net t w2 = (Threw shuttingDownError, w2, [])) /\
  tq (fst (shutdown w2)) = tq w2 /\
  workers (fst (shutdown w2)) = workers w2 /\
  (isProcessing (tq w2) = false ->
   snd (shutdown w2)
   = [shutdownInitiated (getStatus (tq w2)); shutdownComplete (getStatus (tq w2))]).
Proof.
  intros w1 w2.
  assert (isShuttingDown (tq w1) = true) as H1.
  { subst w1. unfold shutdown. case_match; reflexivity. }
  assert (isShuttingDown (tq w2) = true) as H2.
  { subst w2. apply run_keeps_shutting_down, H1. }
  assert (set_isShuttingDown true (tq w2) = tq w2) as Hset.
  { destruct (tq w2); cbn in *. subst. reflexivity. }
  repeat split; try assumption.
  - intros. unfold submit. rewrite H2. reflexivity.
  - unfold shutdown. rewrite Hset. case_match; reflexivity.
  - unfold shutdown. rewrite Hset. case_match; reflexivity.
  - intros Hp. unfold shutdown. rewrite Hset, Hp. reflexivity.
Qed.

(** *** ClearQueue *)

(** C8.  [clearQueue] returns the number of pending items and whether
    [activeTransaction] was set, empties the pending list and changes no
    other field of the queue, no worker, no caller; an attempt that was in
    flight is still in flight afterwards and, when it succeeds, is
    counted as processed and resolves its callers as usual. *)
Theorem clearQueue_frame (w : World) :
  let q := tq w in
  let res := fst (fst (clearQueue q)) in
  let w' := fst (step w ClearQueue) in
  (fst res = length (queue q) /\
   (snd res = true <-> activeTransaction q <> None)) /\
  (queue (tq w') = [] /\
   activeTransaction (tq w') = activeTransaction q /\
   isProcessing (tq w') = isProcessing q /\
   isShuttingDown (tq w') = isShuttingDown q /\
   lastCompletedTimestamp (tq w') = lastCompletedTimestamp q /\
   totalProcessed (tq w') = totalProcessed q /\
   totalFailed (tq w') = totalFailed q /\
   config (tq w') = config q) /\
  (workers w' = workers w /\ callers w' = callers w /\ shutdowns w' = shutdowns w) /\
  snd (step w ClearQueue) = [queueCleared (fst res) (snd res)] /\
  (forall k item r now,
     workers w !! k = Some (AwaitingSubmitter item) ->
     let done := submitterResolves k r now w' in
     snd done = [completed_ (id item) r; completed (id item) r] /\
     totalProcessed (tq (fst done)) = S (totalProcessed q) /\
     totalFailed (tq (fst done)) = totalFailed q /\
     lastCompletedTimestamp (tq (fst done)) = Some now /\
     callers (fst done) = fireCompleted (id item) r <$> callers w /\
     workers (fst done) = delete k (workers w)).
Proof.
  intros q res w'. subst w' res q. cbn.
  split; [split; [reflexivity|]|].
  { destruct (activeTransaction (tq w)); split; congruence. }
  split; [repeat split|]. split; [repeat split|]. split; [reflexivity|].
  intros k item r now Hk. unfold submitterResolves. cbn. rewrite Hk. cbn.
  repeat split.
Qed.

(** The queue of the specification's example: three pending, one active. *)
Example clearQueue_three_pending_one_active :
  fst (fst (clearQueue (tq threePendingOneActive))) = (3, true) /\
  workers (fst (step threePendingOneActive ClearQueue))
  = [AwaitingSubmitter (itemOf 1 "a" 0)] /\
  snd (submitterResolves 0 okResult 9 (fst (step threePendingOneActive ClearQueue)))
  = [completed_ "tx_1_a" okResult; completed "tx_1_a" okResult].
Proof. repeat split. Qed.

(** *** Retry policy *)

(** The retry mechanics, for the messages the code recognises.  An
    attempt fails with a message for which [isNonceConflict] answers
    [true].  While [retryCount < maxRetries] the failure costs
    exactly one retry: the item, with its counter one higher, becomes
    the head of the pending list, one [retry] event is emitted, the
    worker sleeps for [retryDelay] and no caller is touched.  Once
    [retryCount] has reached [maxRetries] the same failure is final:
    [failed_<id>] is emitted, the failed counter goes up by one, the item
    does not return to the pending list and every caller still listening
    for that id with a pending promise is rejected with the error. *)
Theorem nonce_conflict_retry (w : World) (k : nat) (item : QueueItem) (e : JsError) :
  workers w !! k = Some (AwaitingSubmitter item) ->
  e <> Nullish ->
  isNonceConflict (messageOrString e) = true ->
  let q := tq w in
  let w' := fst (submitterRejects k e w) in
  let eff := snd (submitterRejects k e w) in
  ((Z.of_nat (retryCount item) < maxRetries item)%Z ->
     queue (tq w') = incrRetryCount item :: queue q /\
     retryCount (incrRetryCount item) = S (retryCount item) /\
     eff = [retry (id item) (S (retryCount item)) (messageOrString e)] /\
     workers w' = <[k := AwaitingDelay (retryDelay (config q))]> (workers w) /\
     callers w' = callers w /\
     totalFailed (tq w') = totalFailed q /\
     totalProcessed (tq w') = totalProcessed q) /\
  ((maxRetries item <= Z.of_nat (retryCount item))%Z ->
     (exists rest, eff = failed_ (id item) e :: failed (id item) e :: rest) /\
     totalFailed (tq w') = S (totalFailed q) /\
     (queue (tq w') = queue q \/ exists next, queue q = next :: queue (tq w')) /\
     callers w' = (fireFailed (id item) e <$> callers w) /\
     (forall c cl,
        callers w !! c = Some cl -> caller_id cl = id item ->
        onFailed cl = true -> promise cl = Pending ->
        exists cl', callers w' !! c = Some cl' /\ promise cl' = Rejected e)).
Proof.
  intros Hk He Hn q w' eff. subst q w' eff. unfold submitterRejects. rewrite Hk, Hn.
  split.
  - intros Hlt. apply Z.ltb_lt in Hlt. rewrite Hlt.
    destruct e; [| |congruence]; cbn; repeat split.
  - intros Hge. apply Z.ltb_ge in Hge. rewrite Hge.
    assert (forall cs : list Caller, forall c cl,
              cs !! c = Some cl -> caller_id cl = id item ->
              onFailed cl = true -> promise cl = Pending ->
              exists cl', (fireFailed (id item) e <$> cs) !! c = Some cl' /\
                          promise cl' = Rejected e) as Hcs.
    { intros cs c cl Hc Hid Hon Hp. rewrite list_lookup_fmap, Hc. cbn.
      eexists; split; [reflexivity|]. unfold fireFailed.
      rewrite Hid, String.eqb_refl, Hon. cbn. rewrite Hp. reflexivity. }
    set (q1 := set_totalFailed (S (totalFailed (tq w))) (set_activeTransaction None (tq w))).
    assert (match e with
            | Nullish => True
            | _ =>
              let '(q2, ow, eff) := processLoop q1 in
              (exists rest, failed_ (id item) e :: failed (id item) e :: eff
                            = failed_ (id item) e :: failed (id item) e :: rest) /\
              totalFailed q2 = S (totalFailed (tq w)) /\
              (queue q2 = queue (tq w) \/ exists next, queue (tq w) = next :: queue q2)
            end) as Hloop.
    { destruct e; [| |exact I];
        (destruct (processLoop_cases q1) as [(next & rest & Hq & _ & ->)|[_ ->]];
         [split; [eexists; reflexivity|]; split; [reflexivity|];
          right; exists next; exact Hq
         |split; [eexists; reflexivity|]; split; [reflexivity|]; left; reflexivity]). }
    destruct e; [| |congruence]; fold q1;
      (destruct (processLoop q1) as [[q2 ow] eff2]; cbn;
       destruct Hloop as (Hr & Hf & Hq);
       split; [exact Hr|]; split; [exact Hf|]; split; [exact Hq|];
       split; [reflexivity|apply Hcs]).
Qed.

Lemma nonce_conflict_retry_witness :
  let w := fst (run (newWorld testConfig) [submitAt 1 "a"]) in
  queue (tq (fst (submitterRejects 0 priorityTooLow w))) = [itemOf 1 "a" 1] /\
  snd (submitterRejects 0 priorityTooLow w) = [retry "tx_1_a" 1 "Priority is too low"] /\
  callers (fst (submitterRejects 0 priorityTooLow w)) = callers w.
Proof.
  intros w.
  destruct (nonce_conflict_retry w 0 (itemOf 1 "a" 0) priorityTooLow) as [Hretry _];
    [vm_compute; reflexivity|discriminate|vm_compute; reflexivity|].
  destruct Hretry as (Hq & _ & Heff & _ & Hc & _); [cbn; lia|].
  split; [exact Hq|]. split; [exact Heff|exact Hc].
Defined.

(** C2.  What the queue does with nonce conflicts that its test does not
    recognise.  "Stale nonce detected", "Nonce too low" and "priority is
    too low" are nonce conflicts by the documented classifier; for each of
    them [isNonceConflict] answers [false], and when the first attempt of
    an item (no retry used, three allowed) fails with it, the queue emits
    [failed_<id>] and [failed], retries nothing, counts a failure and
    rejects the caller's promise at once. *)
Theorem unrecognised_nonce_conflict_is_not_retried :
  let w0 := fst (run (newWorld testConfig) [submitAt 1 "a"]) in
  Forall (fun msg =>
            Documented.specNonceConflict msg = true /\
            isNonceConflict (messageOrString (ErrorObj msg)) = false /\
            (retryCount <$> inFlightItems w0) = [0] /\
            (maxRetries <$> inFlightItems w0) = [3%Z] /\
            snd (step w0 (SubmitterRejects 0 (ErrorObj msg)))
            = [failed_ "tx_1_a" (ErrorObj msg); failed "tx_1_a" (ErrorObj msg)] /\
            queue (tq (fst (step w0 (SubmitterRejects 0 (ErrorObj msg))))) = [] /\
            (promise <$> callers (fst (step w0 (SubmitterRejects 0 (ErrorObj msg)))))
            = [Rejected (ErrorObj msg)] /\
            totalFailed (tq (fst (step w0 (SubmitterRejects 0 (ErrorObj msg))))) = 1)
         ["Stale nonce detected"; "Nonce too low"; "priority is too low"].
Proof. vm_compute. repeat constructor. Qed.

(** Three retries, then the fourth "Priority is too low" is final. *)
Example priority_too_low_exhausts_retries :
  let '(w, eff) :=
    run (newWorld testConfig)
        [submitAt 1 "a";
         SubmitterRejects 0 priorityTooLow; DelayElapsed 0;
         SubmitterRejects 0 priorityTooLow; DelayElapsed 0;
         SubmitterRejects 0 priorityTooLow; DelayElapsed 0;
         SubmitterRejects 0 priorityTooLow] in
  (promise <$> callers w) = [Rejected priorityTooLow] /\
  totalFailed (tq w) = 1 /\
  omap (fun e => match e with retry _ n _ => Some n | _ => None end) eff = [1; 2; 3].
Proof. vm_compute. repeat split. Qed.

(** C1.  What the queue does when the first attempt of an item fails
    with "Invalid Transaction: insufficient funds" (no "nonce" in it) and
    three retries are configured: [isNonceConflict] answers [true], the
    item goes back to the head of the pending list with [retryCount = 1],
    a [retry] event is emitted, and the caller's promise is still
    pending. *)
Theorem bare_invalid_transaction_is_retried :
  let w0 := fst (run (newWorld testConfig) [submitAt 1 "a"]) in
  let w1 := fst (step w0 (SubmitterRejects 0 insufficientFunds)) in
  includes (toLowerCase (messageOrString insufficientFunds)) "invalid transaction" = true /\
  includes (toLowerCase (messageOrString insufficientFunds)) "nonce" = false /\
  isNonceConflict (messageOrString insufficientFunds) = true /\
  snd (step w0 (SubmitterRejects 0 insufficientFunds))
  = [retry "tx_1_a" 1 "Invalid Transaction: insufficient funds"] /\
  queue (tq w1) = [itemOf 1 "a" 1] /\
  (promise <$> callers w1) = [Pending] /\
  totalFailed (tq w1) = 0.
Proof. vm_compute. repeat split. Qed.

(** *** Per-item timeout *)





(** *** One worker, first in first out *)

Lemma terminalIds_enqueued (i : string) (n : nat) (eff : list Effect) :
  terminalIds (enqueued i n :: eff) = terminalIds eff.
Proof. reflexivity. Qed.

Lemma terminalIds_resumed (eff : list Effect) :
  terminalIds (resumed :: eff) = terminalIds eff.
Proof. reflexivity. Qed.

Lemma terminalIds_completed (i : string) (r : TransactionResult) (eff : list Effect) :
  terminalIds (completed_ i r :: completed i r :: eff) = i :: terminalIds eff.
Proof. reflexivity. Qed.

Lemma terminalIds_failed (i : string) (e : JsError) (eff : list Effect) :
  terminalIds (failed_ i e :: failed i e :: eff) = i :: terminalIds eff.
Proof. reflexivity. Qed.

Lemma processLoop_shape (q : TransactionQueue) :
  isProcessing q = true ->
  let '(q2, ow, eff) := processLoop q in
  workerShape q2 ow /\
  (id <$> (inFlightOf ow ++ queue q2)) = (id <$> queue q) /\
  terminalIds eff = [].
Proof.
  intros Hp.
  destruct (processLoop_cases q) as [(item & rest & Hi & _ & ->)|[_ ->]]; cbn.
  - rewrite Hi. auto.
  - auto.
Qed.

Lemma processQueue_shape (q : TransactionQueue) (ow0 : option Worker) :
  workerShape q ow0 ->
  let '(q2, ow, eff) := processQueue q in
  exists ow2,
    option_list ow0 ++ option_list ow = option_list ow2 /\
    workerShape q2 ow2 /\
    (id <$> (inFlightOf ow2 ++ queue q2)) = (id <$> (inFlightOf ow0 ++ queue q)) /\
    terminalIds eff = [].
Proof.
  intros Hs. unfold processQueue.
  destruct (isProcessing q) eqn:Hp; cbn [orb].
  { exists ow0. rewrite ?app_nil_r. auto. }
  assert (ow0 = None) as -> by (destruct ow0 as [[?|?]|]; cbn in Hs; [destruct Hs; congruence..|reflexivity]).
  destruct ((length (queue q) =? 0)%nat || isShuttingDown q).
  { exists None. auto. }
  pose proof (processLoop_shape (set_isProcessing true q) eq_refl) as H.
  destruct (processLoop _) as [[q2 ow] eff]. exists ow. cbn in *. auto.
Qed.

Lemma continueWorker_single (ow : option Worker) (wk : Worker) :
  continueWorker 0 ow [wk] = option_list ow.
Proof. destruct ow; reflexivity. Qed.

Lemma lookup_option_list (ow : option Worker) (k : nat) (wk : Worker) :
  option_list ow !! k = Some wk -> ow = Some wk /\ k = 0.
Proof. destruct ow, k; cbn; intros H; inversion H; auto. Qed.

Lemma step_single (w : World) (i : Input) (T S : list string) :
  singleWorker w ->
  isPause i = false ->
  (T ++ pendingIds w) `sublist_of` S ->
  singleWorker (fst (step w i)) /\
  (T ++ terminalIds (snd (step w i)) ++ pendingIds (fst (step w i)))
    `sublist_of` (S ++ option_list (submittedId i)).
Proof.
  intros (ow & Hws & Hsh) Hi Hsub.
  destruct w as [q ws cs sd]. cbn in Hws, Hsh. subst ws.
  unfold singleWorker, pendingIds, inFlightItems in *. cbn [tq workers] in *.
  fold (inFlightOf ow) in Hsub.
  destruct i as [stamp suffix now pf signals key net t|k r now|k e|k|c| | |s| |];
    try discriminate Hi; cbn [step submittedId option_list].
  - (* Submit *)
    unfold submit. cbn [tq workers callers shutdowns].
    destruct (isShuttingDown q) eqn:Hsd.
    { cbn. split; [eauto|]. apply sublist_inserts_r, Hsub. }
    set (item := mkItem _ _ _ _ _ _ _ _).
    assert (workerShape (set_queue (queue q ++ [item]) q) ow) as Hsh'
      by (destruct ow as [[?|?]|]; exact Hsh).
    pose proof (processQueue_shape _ ow Hsh') as H.
    destruct (processQueue _) as [[q2 ow'] eff].
    destruct H as (ow2 & Hws & Hsh2 & Hpend & Hterm).
    cbn [fst snd tq workers]. rewrite Hws.
    split; [eauto|]. fold (inFlightOf ow2). rewrite ?terminalIds_enqueued, ?terminalIds_resumed, ?terminalIds_completed, ?terminalIds_failed.
    rewrite Hterm, Hpend. cbn [set_queue queue app].
    rewrite (app_assoc (inFlightOf ow)), fmap_app, (app_assoc T).
    apply sublist_app; [exact Hsub|reflexivity].
  - (* SubmitterResolves *)
    unfold submitterResolves. cbn [tq workers callers shutdowns].
    destruct (option_list ow !! k) as [[item|ms]|] eqn:Hk;
      [|cbn; rewrite ?app_nil_r; eauto..].
    apply lookup_option_list in Hk as [-> ->]. destruct Hsh as [Hp Ha].
    set (q1 := set_activeTransaction None _).
    pose proof (processLoop_shape q1 Hp) as H.
    destruct (processLoop q1) as [[q2 ow'] eff].
    destruct H as (Hsh2 & Hpend & Hterm).
    cbn [fst snd tq workers option_list option_rect]. rewrite continueWorker_single.
    split; [eauto|]. fold (inFlightOf ow'). rewrite ?terminalIds_enqueued, ?terminalIds_resumed, ?terminalIds_completed, ?terminalIds_failed.
    rewrite Hterm, Hpend, app_nil_r. exact Hsub.
  - (* SubmitterRejects *)
    unfold submitterRejects. cbn [tq workers callers shutdowns].
    destruct (option_list ow !! k) as [[item|ms]|] eqn:Hk;
      [|cbn; rewrite ?app_nil_r; eauto..].
    apply lookup_option_list in Hk as [-> ->]. destruct Hsh as [Hp Ha].
    assert (e = Nullish \/ e <> Nullish) as [->|He] by (destruct e; auto; right; congruence).
    { cbn. split; [exists None; repeat split|]. rewrite ?app_nil_r.
      etrans; [|exact Hsub]. apply sublist_app; [reflexivity|]. cbn.
      apply sublist_cons. reflexivity. }
    assert (forall A (a b : A), match e with Nullish => a | _ => b end = b) as Hm
      by (intros; destruct e; congruence).
    rewrite Hm. clear Hm.
    destruct (isNonceConflict (messageOrString e) &&
              (Z.of_nat (retryCount item) <? maxRetries item)%Z).
    + cbn. split; [exists (Some (AwaitingDelay (retryDelay (config q)))); repeat split; assumption|].
      rewrite ?app_nil_r. exact Hsub.
    + set (q1 := set_totalFailed _ _).
      pose proof (processLoop_shape q1 Hp) as H.
      destruct (processLoop q1) as [[q2 ow'] eff].
      destruct H as (Hsh2 & Hpend & Hterm).
      cbn [fst snd tq workers option_list option_rect]. rewrite continueWorker_single.
      split; [eauto|]. fold (inFlightOf ow'). rewrite ?terminalIds_enqueued, ?terminalIds_resumed, ?terminalIds_completed, ?terminalIds_failed.
      rewrite Hterm, Hpend, app_nil_r. exact Hsub.
  - (* DelayElapsed *)
    unfold delayElapsed. cbn [tq workers callers shutdowns].
    destruct (option_list ow !! k) as [[item|ms]|] eqn:Hk;
      [cbn; rewrite ?app_nil_r; eauto| |cbn; rewrite ?app_nil_r; eauto].
    apply lookup_option_list in Hk as [-> ->]. destruct Hsh as [Hp Ha].
    pose proof (processLoop_shape q Hp) as H.
    destruct (processLoop q) as [[q2 ow'] eff].
    destruct H as (Hsh2 & Hpend & Hterm).
    cbn [fst snd tq workers option_list option_rect]. rewrite continueWorker_single.
    split; [eauto|]. fold (inFlightOf ow'). rewrite Hterm, Hpend, app_nil_r. exact Hsub.
  - (* TimerFires *)
    unfold timerFires. cbn [tq workers callers shutdowns].
    destruct (cs !! c) as [cl|]; [|cbn; rewrite ?app_nil_r; eauto].
    destruct (itemTimeout cl) as [ms|]; [|cbn; rewrite ?app_nil_r; eauto].
    destruct (findIndex (caller_id cl) (queue q)) as [index|]; cbn;
      rewrite ?app_nil_r.
    + split; [exists ow; split; [reflexivity|destruct ow as [[?|?]|]; exact Hsh]|].
      etrans; [|exact Hsub]. apply sublist_app; [reflexivity|].
      apply fmap_sublist, sublist_app; [reflexivity|apply sublist_delete].
    + eauto.
  - (* ClearQueue *)
    cbn. rewrite ?app_nil_r.
    split; [exists ow; split; [reflexivity|destruct ow as [[?|?]|]; exact Hsh]|].
    etrans; [|exact Hsub]. apply sublist_app; [reflexivity|].
    apply fmap_sublist, sublist_inserts_r. reflexivity.
  - (* Shutdown *)
    unfold shutdown. cbn [tq workers callers shutdowns].
    destruct (isProcessing _); cbn; rewrite ?app_nil_r;
      (split; [exists ow; split; [reflexivity|destruct ow as [[?|?]|]; exact Hsh]|exact Hsub]).
  - (* ShutdownPoll *)
    unfold shutdownPoll. cbn [tq workers callers shutdowns].
    destruct (sd !! s); [|cbn; rewrite ?app_nil_r; eauto].
    destruct (isProcessing _); cbn; rewrite ?app_nil_r; eauto.
  - (* Resume *)
    unfold resume. cbn [tq workers callers shutdowns].
    destruct (negb (isProcessing q) && negb (isShuttingDown q));
      [|cbn; rewrite ?app_nil_r; eauto].
    pose proof (processQueue_shape _ ow Hsh) as H.
    destruct (processQueue _) as [[q2 ow'] eff].
    destruct H as (ow2 & Hws & Hsh2 & Hpend & Hterm).
    cbn [fst snd tq workers]. rewrite Hws.
    split; [eauto|]. fold (inFlightOf ow2). rewrite ?terminalIds_enqueued, ?terminalIds_resumed, ?terminalIds_completed, ?terminalIds_failed.
    rewrite Hterm, Hpend, app_nil_r. exact Hsub.
Qed.

Lemma terminalIds_app (eff1 eff2 : list Effect) :
  terminalIds (eff1 ++ eff2) = terminalIds eff1 ++ terminalIds eff2.
Proof. apply omap_app. Qed.

Lemma submittedIds_cons (i : Input) (ins : list Input) :
  submittedIds (i :: ins) = option_list (submittedId i) ++ submittedIds ins.
Proof. unfold submittedIds. cbn. destruct (submittedId i); reflexivity. Qed.

Lemma run_single (ins : list Input) (w : World) (T S : list string) :
  singleWorker w ->
  forallb (fun i => negb (isPause i)) ins = true ->
  (T ++ pendingIds w) `sublist_of` S ->
  singleWorker (fst (run w ins)) /\
  (T ++ terminalIds (snd (run w ins)) ++ pendingIds (fst (run w ins)))
    `sublist_of` (S ++ submittedIds ins).
Proof.
  revert w T S. induction ins as [|i ins IH]; intros w T S Hs Hp Hsub.
  - cbn. rewrite app_nil_r. auto.
  - cbn [forallb] in Hp. apply andb_prop in Hp as [Hi Hp].
    apply negb_true_iff in Hi.
    destruct (step_single w i T S Hs Hi Hsub) as [Hs1 Hsub1].
    cbn [run]. destruct (step w i) as [w1 eff1]. cbn [fst snd] in *.
    rewrite app_assoc in Hsub1.
    destruct (IH w1 _ _ Hs1 Hp Hsub1) as [Hs2 Hsub2].
    destruct (run w1 ins) as [w2 eff2]. cbn [fst snd] in *.
    split; [exact Hs2|].
    rewrite terminalIds_app, submittedIds_cons, <- !app_assoc.
    rewrite <- !app_assoc in Hsub2. exact Hsub2.
Qed.

Lemma singleWorker_new (cfg : QueueConfig) : singleWorker (newWorld cfg).
Proof. exists None. repeat split. Qed.

(** C3.  From a new queue, through any history of [submit] calls,
    attempt outcomes, elapsed delays, timers, [clearQueue], [shutdown] and
    [resume] (no [pause]; [maxConcurrent] is never read), at every
    moment at most one invocation of [processQueue] exists and at most
    one item is being attempted, [activeTransaction] is set exactly to
    that item's snapshot, and the ids that have reached [completed] or
    [failed], followed by the ids in flight and pending, appear in the
    order of their submission: a retried item, back at the head of the
    pending list, stays ahead of everything submitted after it and
    behind nothing. *)
Theorem single_worker_fifo (cfg : QueueConfig) (ins : list Input) :
  forallb (fun i => negb (isPause i)) ins = true ->
  let w := fst (run (newWorld cfg) ins) in
  let eff := snd (run (newWorld cfg) ins) in
  length (inFlightItems w) <= 1 /\
  length (workers w) <= 1 /\
  (forall a, activeTransaction (tq w) = Some a ->
             exists item, inFlightItems w = [item] /\ a = snapshotOf item) /\
  terminalIds eff `sublist_of` submittedIds ins /\
  (terminalIds eff ++ pendingIds w) `sublist_of` submittedIds ins.
Proof.
  intros Hp w eff.
  destruct (run_single ins (newWorld cfg) [] [] (singleWorker_new cfg) Hp)
    as [(ow & Hws & Hsh) Hsub]; [reflexivity|].
  fold w in Hws, Hsh, Hsub. fold eff in Hsub. cbn [app] in Hsub.
  unfold inFlightItems. rewrite Hws.
  split; [destruct ow as [[?|?]|]; cbn; lia|].
  split; [destruct ow as [[?|?]|]; cbn; lia|].
  split; [|split; [|exact Hsub]].
  - intros a Ha. destruct ow as [[item|ms]|]; cbn in Hsh; destruct Hsh as [_ Ha'];
      rewrite Ha' in Ha; inversion Ha; subst. exists item. auto.
  - etrans; [|exact Hsub]. apply sublist_inserts_r. reflexivity.
Qed.

Lemma single_worker_fifo_witness :
  let ins := [submitAt 1 "a"; submitAt 2 "b"; SubmitterRejects 0 priorityTooLow;
              submitAt 3 "c"; DelayElapsed 0; SubmitterResolves 0 okResult 9;
              SubmitterRejects 0 (ErrorObj "Test error");
              SubmitterResolves 0 okResult 10] in
  terminalIds (snd (run (newWorld testConfig) ins)) = ["tx_1_a"; "tx_2_b"; "tx_3_c"] /\
  submittedIds ins = ["tx_1_a"; "tx_2_b"; "tx_3_c"] /\
  terminalIds (snd (run (newWorld testConfig) ins)) `sublist_of` submittedIds ins.
Proof.
  intros ins. split; [vm_compute; reflexivity|]. split; [vm_compute; reflexivity|].
  apply (single_worker_fifo testConfig ins). vm_compute. reflexivity.
Defined.

(** [pause()] lowers [isProcessing] under a running worker, and the next
    [submit] starts a second one. *)
Example pause_allows_two_attempts :
  let w := fst (run (newWorld testConfig) [submitAt 1 "a"; Pause; submitAt 2 "b"]) in
  id <$> inFlightItems w = ["tx_1_a"; "tx_2_b"].
Proof. vm_compute. reflexivity. Qed.

(** *** Items removed by ClearQueue *)

Lemma processLoop_absent (x : string) (q : TransactionQueue) :
  Forall (fun item => id item <> x) (queue q) ->
  Forall (fun item => id item <> x) (queue (fst (fst (processLoop q)))) /\
  Forall (notAttempted x) (option_list (snd (fst (processLoop q)))) /\
  omap settledId (snd (processLoop q)) = [].
Proof.
  intros Hq.
  destruct (processLoop_cases q) as [(item & rest & Hi & _ & ->)|[_ ->]]; cbn.
  - rewrite Hi in Hq. inversion Hq; subst. repeat split; auto.
  - repeat split; auto.
Qed.

Lemma processQueue_absent (x : string) (q : TransactionQueue) :
  Forall (fun item => id item <> x) (queue q) ->
  Forall (fun item => id item <> x) (queue (fst (fst (processQueue q)))) /\
  Forall (notAttempted x) (option_list (snd (fst (processQueue q)))) /\
  omap settledId (snd (processQueue q)) = [].
Proof.
  intros Hq. unfold processQueue.
  destruct (isProcessing q || (length (queue q) =? 0)%nat || isShuttingDown q).
  - cbn. repeat split; auto.
  - apply processLoop_absent. exact Hq.
Qed.

Lemma continueWorker_absent (x : string) (k : nat) (ow : option Worker) (ws : list Worker) :
  Forall (notAttempted x) ws ->
  Forall (notAttempted x) (option_list ow) ->
  Forall (notAttempted x) (continueWorker k ow ws).
Proof.
  intros Hws How. destruct ow as [wk|]; cbn.
  - apply Forall_insert; [assumption|]. inversion How; assumption.
  - apply Forall_delete. assumption.
Qed.

Lemma samePromises_refl (x : string) (cs : list Caller) : samePromises x cs cs.
Proof. intros c cl Hc Hx. eauto. Qed.

Lemma samePromises_trans (x : string) (cs1 cs2 cs3 : list Caller) :
  samePromises x cs1 cs2 -> samePromises x cs2 cs3 -> samePromises x cs1 cs3.
Proof.
  intros H12 H23 c cl Hc Hx.
  destruct (H12 c cl Hc Hx) as (cl2 & Hc2 & Hx2 & Hp2).
  destruct (H23 c cl2 Hc2 Hx2) as (cl3 & Hc3 & Hx3 & Hp3).
  exists cl3. repeat split; congruence.
Qed.

Lemma samePromises_fmap (x : string) (f : Caller -> Caller) (cs : list Caller) :
  (forall cl, caller_id cl = x -> caller_id (f cl) = x /\ promise (f cl) = promise cl) ->
  samePromises x cs (f <$> cs).
Proof.
  intros Hf c cl Hc Hx. exists (f cl). rewrite list_lookup_fmap, Hc.
  destruct (Hf cl Hx). auto.
Qed.

Lemma fireCompleted_other (x ident : string) (r : TransactionResult) (cl : Caller) :
  ident <> x -> caller_id cl = x ->
  caller_id (fireCompleted ident r cl) = x /\
  promise (fireCompleted ident r cl) = promise cl.
Proof.
  intros Hne Hx. unfold fireCompleted.
  destruct (String.eqb_spec (caller_id cl) ident) as [Heq|_]; [congruence|].
  cbn. auto.
Qed.

Lemma fireFailed_other (x ident : string) (e : JsError) (cl : Caller) :
  ident <> x -> caller_id cl = x ->
  caller_id (fireFailed ident e cl) = x /\
  promise (fireFailed ident e cl) = promise cl.
Proof.
  intros Hne Hx. unfold fireFailed.
  destruct (String.eqb_spec (caller_id cl) ident) as [Heq|_]; [congruence|].
  cbn. auto.
Qed.

Lemma findIndex_absent (x : string) (l : list QueueItem) :
  Forall (fun item => id item <> x) l -> findIndex x l = None.
Proof.
  induction 1 as [|item l Hne _ IH]; [reflexivity|].
  cbn. destruct (String.eqb_spec (id item) x); [contradiction|].
  rewrite IH. reflexivity.
Qed.

Lemma step_absent (x : string) (w : World) (i : Input) :
  absent x w ->
  submittedId i <> Some x ->
  absent x (fst (step w i)) /\
  (x ∉ omap settledId (snd (step w i))) /\
  samePromises x (callers w) (callers (fst (step w i))).
Proof.
  intros [Hq Hw] Hi. unfold absent.
  destruct i as [stamp suffix now pf signals key net t|k r now|k e|k|c| | |s| |]; cbn [step].
  - (* Submit *)
    cbn in Hi. unfold submit.
    destruct (isShuttingDown (tq w)); [cbn; auto using samePromises_refl, not_elem_of_nil|].
    set (item := mkItem _ _ _ _ _ _ _ _).
    assert (Forall (fun it => id it <> x) (queue (tq w) ++ [item])) as Hq'.
    { apply Forall_app. split; [assumption|]. constructor; [|constructor].
      cbn. congruence. }
    pose proof (processQueue_absent x (set_queue (queue (tq w) ++ [item]) (tq w)) Hq')
      as (H1 & H2 & H3).
    destruct (processQueue _) as [[q2 ow] eff]. cbn in *.
    repeat split.
    + assumption.
    + apply Forall_app. auto.
    + rewrite H3. apply not_elem_of_nil.
    + intros c cl Hc Hx. exists cl. rewrite lookup_app_l by (eapply lookup_lt_Some; eauto).
      auto.
  - (* SubmitterResolves *)
    unfold submitterResolves.
    destruct (workers w !! k) as [[item|ms]|] eqn:Hk;
      [|cbn; auto using samePromises_refl, not_elem_of_nil..].
    pose proof (Forall_lookup_1 _ _ _ _ Hw Hk) as Hne. cbn in Hne.
    set (q1 := set_activeTransaction None _).
    pose proof (processLoop_absent x q1 Hq) as (H1 & H2 & H3).
    destruct (processLoop q1) as [[q2 ow] eff]. cbn in *.
    repeat split.
    + assumption.
    + apply continueWorker_absent; assumption.
    + rewrite H3. rewrite !not_elem_of_cons. auto using not_elem_of_nil.
    + apply samePromises_fmap. intros cl. apply fireCompleted_other. exact Hne.
  - (* SubmitterRejects *)
    unfold submitterRejects.
    destruct (workers w !! k) as [[item|ms]|] eqn:Hk;
      [|cbn; auto using samePromises_refl, not_elem_of_nil..].
    pose proof (Forall_lookup_1 _ _ _ _ Hw Hk) as Hne. cbn in Hne.
    assert (e = Nullish \/ e <> Nullish) as [->|He] by (destruct e; auto; right; congruence).
    { cbn. repeat split; auto using samePromises_refl, not_elem_of_nil.
      apply Forall_delete. assumption. }
    assert (forall A (a b : A), match e with Nullish => a | _ => b end = b) as Hm
      by (intros; destruct e; congruence).
    rewrite Hm. clear Hm.
    destruct (isNonceConflict (messageOrString e) &&
              (Z.of_nat (retryCount item) <? maxRetries item)%Z).
    + cbn. repeat split; auto using samePromises_refl, not_elem_of_nil.
      apply Forall_insert; [assumption|exact I].
    + set (q1 := set_totalFailed _ _).
      pose proof (processLoop_absent x q1 Hq) as (H1 & H2 & H3).
      destruct (processLoop q1) as [[q2 ow] eff]. cbn in *.
      repeat split.
      * assumption.
      * apply continueWorker_absent; assumption.
      * rewrite H3. rewrite !not_elem_of_cons. auto using not_elem_of_nil.
      * apply samePromises_fmap. intros cl. apply fireFailed_other. exact Hne.
  - (* DelayElapsed *)
    unfold delayElapsed.
    destruct (workers w !! k) as [[item|ms]|] eqn:Hk;
      [cbn; auto using samePromises_refl, not_elem_of_nil| |
       cbn; auto using samePromises_refl, not_elem_of_nil].
    pose proof (processLoop_absent x (tq w) Hq) as (H1 & H2 & H3).
    destruct (processLoop (tq w)) as [[q2 ow] eff]. cbn in *.
    repeat split; auto using samePromises_refl, continueWorker_absent.
    rewrite H3. apply not_elem_of_nil.
  - (* TimerFires *)
    unfold timerFires.
    destruct (callers w !! c) as [cl|] eqn:Hc;
      [|cbn; auto using samePromises_refl, not_elem_of_nil].
    destruct (itemTimeout cl) as [ms|];
      [|cbn; auto using samePromises_refl, not_elem_of_nil].
    pose proof (lookup_lt_Some _ _ _ Hc) as Hlt.
    destruct (findIndex (caller_id cl) (queue (tq w))) as [index|] eqn:Hf; cbn.
    + repeat split; auto using not_elem_of_nil.
      * apply Forall_delete. assumption.
      * intros c' cl' Hc' Hx. destruct (decide (c' = c)) as [->|Hcc].
        -- rewrite Hc in Hc'. injection Hc' as ->.
           rewrite Hx, (findIndex_absent x _ Hq) in Hf. discriminate Hf.
        -- exists cl'. rewrite list_lookup_insert_ne by congruence. auto.
    + repeat split; auto using not_elem_of_nil.
      intros c' cl' Hc' Hx. destruct (decide (c' = c)) as [->|Hcc].
      * rewrite Hc in Hc'. injection Hc' as ->.
        rewrite list_lookup_insert_eq by exact Hlt. eexists; split; [reflexivity|].
        cbn. auto.
      * exists cl'. rewrite list_lookup_insert_ne by congruence. auto.
  - (* ClearQueue *)
    cbn. repeat split; auto using samePromises_refl, not_elem_of_nil.
  - (* Shutdown *)
    unfold shutdown. destruct (isProcessing _); cbn;
      repeat split; auto using samePromises_refl, not_elem_of_nil.
    + apply samePromises_fmap. intros cl Hx. cbn. auto.
  - (* ShutdownPoll *)
    unfold shutdownPoll. destruct (shutdowns w !! s);
      [|cbn; auto using samePromises_refl, not_elem_of_nil].
    destruct (isProcessing _); cbn;
      repeat split; auto using samePromises_refl, not_elem_of_nil.
    apply samePromises_fmap. intros cl Hx. cbn. auto.
  - (* Pause *)
    cbn. repeat split; auto using samePromises_refl, not_elem_of_nil.
  - (* Resume *)
    unfold resume.
    destruct (negb (isProcessing (tq w)) && negb (isShuttingDown (tq w)));
      [|cbn; auto using samePromises_refl, not_elem_of_nil].
    pose proof (processQueue_absent x (tq w) Hq) as (H1 & H2 & H3).
    destruct (processQueue (tq w)) as [[q2 ow] eff]. cbn in *.
    repeat split; auto using samePromises_refl.
    + apply Forall_app. auto.
    + rewrite H3. apply not_elem_of_nil.
Qed.

Lemma run_absent (x : string) (ins : list Input) (w : World) :
  absent x w ->
  x ∉ submittedIds ins ->
  absent x (fst (run w ins)) /\
  (x ∉ omap settledId (snd (run w ins))) /\
  samePromises x (callers w) (callers (fst (run w ins))).
Proof.
  revert w. induction ins as [|i ins IH]; intros w Ha Hx.
  - cbn. auto using samePromises_refl, not_elem_of_nil.
  - assert (submittedId i <> Some x /\ x ∉ submittedIds ins) as [Hi Hins].
    { unfold submittedIds in *. cbn in Hx. destruct (submittedId i) as [y|].
      - apply not_elem_of_cons in Hx as [Hne Hx]. split; [congruence|exact Hx].
      - split; [discriminate|exact Hx]. }
    destruct (step_absent x w i Ha Hi) as (Ha1 & He1 & Hc1).
    cbn [run]. destruct (step w i) as [w1 eff1]. cbn [fst snd] in *.
    destruct (IH w1 Ha1 Hins) as (Ha2 & He2 & Hc2).
    destruct (run w1 ins) as [w2 eff2]. cbn [fst snd] in *.
    split; [exact Ha2|]. split.
    + rewrite omap_app, not_elem_of_app. auto.
    + eapply samePromises_trans; eassumption.
Qed.

Lemma notAttempted_inFlight (x : string) (ws : list Worker) :
  x ∉ (id <$> omap inFlight ws) -> Forall (notAttempted x) ws.
Proof.
  induction ws as [|[item|ms] ws IH]; cbn; intros Hx.
  - constructor.
  - apply not_elem_of_cons in Hx as [Hne Hx]. constructor; [cbn; congruence|auto].
  - constructor; [exact I|auto].
Qed.

(** C10.  An id that is not being attempted when [clearQueue] runs (its
    item was pending, or nowhere) and that no later [submit] generates
    again: whatever happens afterwards, no [completed_<id>],
    [completed], [failed_<id>] or [failed] for it is emitted, every
    promise held for it stays in the state it was in, and the search of
    its timer in the pending list finds nothing. *)
Theorem cleared_item_never_settles (w : World) (x : string) (ins : list Input) :
  x ∉ (id <$> inFlightItems w) ->
  x ∉ submittedIds ins ->
  let w0 := fst (step w ClearQueue) in
  (x ∉ omap settledId (snd (run w0 ins))) /\
  samePromises x (callers w) (callers (fst (run w0 ins))) /\
  findIndex x (queue (tq (fst (run w0 ins)))) = None.
Proof.
  intros Hw Hins w0.
  assert (absent x w0) as Ha.
  { split; [constructor|]. apply notAttempted_inFlight. exact Hw. }
  destruct (run_absent x ins w0 Ha Hins) as ([Hq _] & He & Hc).
  split; [exact He|]. split; [exact Hc|]. apply findIndex_absent, Hq.
Qed.

Lemma cleared_item_never_settles_witness :
  let ins := [TimerFires 1; SubmitterResolves 0 okResult 9; submitAt 5 "e";
              SubmitterResolves 0 okResult 10; TimerFires 1] in
  let w' := fst (run (fst (step threePendingOneActive ClearQueue)) ins) in
  (promise <$> callers threePendingOneActive !! 1) = Some Pending /\
  (promise <$> callers w' !! 1) = Some Pending /\
  ("tx_2_b" ∉ omap settledId
     (snd (run (fst (step threePendingOneActive ClearQueue)) ins))).
Proof.
  intros ins w'.
  destruct (cleared_item_never_settles threePendingOneActive "tx_2_b" ins)
    as (He & Hc & _).
  - apply (bool_decide_unpack _). vm_compute. reflexivity.
  - apply (bool_decide_unpack _). vm_compute. reflexivity.
  - split; [vm_compute; reflexivity|]. split; [|exact He].
    destruct (Hc 1 (mkCaller "tx_2_b" Pending (Some 5000%Z) true true))
      as (cl' & Hcl & _ & Hp); [vm_compute; reflexivity|reflexivity|].
    assert (forall o : option Caller, o = Some cl' -> promise <$> o = Some Pending) as G
      by (intros ? ->; cbn; rewrite Hp; reflexivity).
    apply G, Hcl.
Defined.

End QueueSpec.

(** ** Requests while the chain session is not connected *)

Module GateSpec.
Import JsString Classifier Queue Observers Server Examples QueueSpec.

Lemma verifyScore_unavailable (stamp : Z) (suffix : string) (now : Z)
    (pf : option Json) (signals : option (list Json)) (srv : ServerState) :
  sessionAvailable (connection srv) = false ->
  exists status err,
    verifyScore stamp suffix now pf signals srv = Reply status err /\
    (status = 400 \/ status = 503).
Proof.
  intros Hs. unfold verifyScore. rewrite Hs. cbn [negb].
  destruct (validateProofAndSignals pf signals) as [err|]; [eauto|].
  destruct (transactionQueue srv); [|eauto].
  destruct (isReconnecting (connection srv)); eauto.
Qed.





End GateSpec.

(* ===================================================================== *)
(** * Further properties                                                  *)
(* ===================================================================== *)

(** ** Classifiers and the replies built on them *)

Module ClassifierFacts.
Import JsString Classifier Queue Server Http ClassifierSpec.

Lemma lowerChar_idem (c : ascii) : lowerChar (lowerChar c) = lowerChar c.
Proof.
  destruct c as [b0 b1 b2 b3 b4 b5 b6 b7].
  destruct b0, b1, b2, b3, b4, b5, b6, b7; reflexivity.
Qed.

Lemma toLowerCase_idem (s : string) : toLowerCase (toLowerCase s) = toLowerCase s.
Proof.
  induction s as [|c s IH]; [reflexivity|].
  cbn [toLowerCase]. rewrite lowerChar_idem, IH. reflexivity.
Qed.

Lemma toLowerCase_empty (s : string) : toLowerCase s = "" <-> s = "".
Proof. destruct s; cbn; split; intros H; congruence. Qed.

Lemma append_cons (c : ascii) (s t : string) :
  String c s +:+ t = String c (s +:+ t).
Proof. reflexivity. Qed.

Lemma toLowerCase_append (s t : string) :
  toLowerCase (s +:+ t) = toLowerCase s +:+ toLowerCase t.
Proof.
  induction s as [|c s IH]; [reflexivity|].
  rewrite append_cons. cbn [toLowerCase]. rewrite IH, append_cons. reflexivity.
Qed.

Lemma startsWith_lower (s p : string) :
  startsWith s p = true -> startsWith (toLowerCase s) (toLowerCase p) = true.
Proof.
  revert s. induction p as [|a p IH]; intros s H; [destruct s; reflexivity|].
  destruct s as [|b s]; [discriminate H|].
  cbn in *. apply andb_prop in H as [Hab Hs].
  apply Ascii.eqb_eq in Hab. subst b.
  rewrite Ascii.eqb_refl. cbn. apply IH, Hs.
Qed.

Lemma includes_lower (s p : string) :
  includes s p = true -> includes (toLowerCase s) (toLowerCase p) = true.
Proof.
  induction s as [|c s IH]; intros H.
  - cbn in *. rewrite orb_false_r in *.
    apply (startsWith_lower "" p) in H. cbn in H. rewrite H. reflexivity.
  - cbn [includes] in H. apply orb_prop in H as [H|H].
    + apply startsWith_lower in H. cbn [toLowerCase includes]. cbn [toLowerCase] in H.
      rewrite H. reflexivity.
    + cbn [toLowerCase includes]. rewrite (IH H). apply orb_true_r.
Qed.


Lemma startsWith_append (s t p : string) :
  startsWith s p = true -> startsWith (s +:+ t) p = true.
Proof.
  revert s. induction p as [|a p IH]; intros s H; [destruct (s +:+ t); reflexivity|].
  destruct s as [|b s]; [discriminate H|].
  rewrite append_cons. cbn in *. apply andb_prop in H as [-> Hs]. cbn. apply IH, Hs.
Qed.

Lemma includes_append_l (s t p : string) :
  includes s p = true -> includes (s +:+ t) p = true.
Proof.
  induction s as [|c s IH]; intros H.
  - cbn in H. rewrite orb_false_r in H.
    pose proof (startsWith_append "" t p H) as H'.
    change ("" +:+ t) with t in *. destruct t; cbn in *; rewrite H'; reflexivity.
  - cbn [includes] in H. apply orb_prop in H as [H|H].
    + apply (startsWith_append _ t) in H. rewrite append_cons in *.
      cbn [includes]. rewrite H. reflexivity.
    + rewrite append_cons. cbn [includes]. rewrite (IH H). apply orb_true_r.
Qed.

Lemma messageOrString_ErrorObj (m : string) :
  m <> "" -> messageOrString (ErrorObj m) = m.
Proof. intros H. cbn. destruct (String.eqb_spec m ""); [contradiction|reflexivity]. Qed.

(** X11.  The three classifiers that lower-case the message give the same answer
    for two [Error]s whose messages differ only in case. *)
Theorem classification_ignores_case (m1 m2 : string) :
  toLowerCase m1 = toLowerCase m2 ->
  categorizeTransactionError (ErrorObj m1) = categorizeTransactionError (ErrorObj m2) /\
  categorizeError (ErrorObj m1) = categorizeError (ErrorObj m2) /\
  isNonceConflictError m1 = isNonceConflictError m2.
Proof.
  intros H. split; [|split].
  - unfold categorizeTransactionError. cbn [falsy].
    destruct (String.eqb_spec m1 "") as [->|H1].
    + assert (m2 = "") as -> by (apply toLowerCase_empty; symmetry; exact H).
      reflexivity.
    + assert (m2 <> "") as H2.
      { intros ->. apply H1. apply toLowerCase_empty. exact H. }
      rewrite (messageOrString_ErrorObj m1 H1), (messageOrString_ErrorObj m2 H2), H.
      reflexivity.
  - unfold categorizeError. cbn [messageOrEmpty]. rewrite H. reflexivity.
  - unfold isNonceConflictError. rewrite H. reflexivity.
Qed.

Lemma classification_ignores_case_witness :
  categorizeTransactionError (ErrorObj "PROOF VERIFICATION FAILED")
  = categorizeTransactionError (ErrorObj "proof verification failed").
Proof.
  apply (classification_ignores_case "PROOF VERIFICATION FAILED" "proof verification failed").
  reflexivity.
Defined.

(** The queue's own test is case-sensitive. *)
Example isNonceConflict_case_sensitive :
  isNonceConflict "Priority is too low" = true /\
  isNonceConflict "priority is too low" = false /\
  isNonceConflictError "priority is too low" = true.
Proof. repeat split. Qed.

(** X12.  Every message the queue retries on is a nonce conflict for
    [isNonceConflictError] as well. *)
Theorem isNonceConflict_implies_isNonceConflictError (msg : string) :
  isNonceConflict msg = true -> isNonceConflictError msg = true.
Proof.
  unfold isNonceConflict, isNonceConflictError. intros H. cbv zeta.
  repeat (apply orb_prop in H; destruct H as [H|H]); apply includes_lower in H.
  - change (toLowerCase "Priority is too low") with "priority is too low" in H.
    rewrite H. reflexivity.
  - change (toLowerCase "1014") with "1014" in H.
    rewrite H, !orb_true_r. reflexivity.
  - change (toLowerCase "Transaction is already in the pool")
      with "transaction is already in the pool" in H.
    rewrite H, !orb_true_r. reflexivity.
  - change (toLowerCase "Invalid Transaction") with "invalid transaction" in H.
    rewrite H, !orb_true_r. reflexivity.
Qed.

Lemma isNonceConflict_implies_isNonceConflictError_witness :
  isNonceConflictError "Error 1014: Priority is too low" = true.
Proof.
  apply (isNonceConflict_implies_isNonceConflictError "Error 1014: Priority is too low").
  reflexivity.
Defined.



(** The fourth pattern of the queue has no rule in the handler's
    classifier. *)
Example already_in_pool_is_unknown :
  isNonceConflict "Transaction is already in the pool" = true /\
  errorReply (ErrorObj "Transaction is already in the pool")
  = mkErrorReply 500 UNKNOWN_ERROR false.
Proof. repeat split. Qed.

Lemma timeoutError_lower (ms : Z) :
  toLowerCase (messageOrString (timeoutError ms))
  = "transaction timeout after " +:+ toLowerCase (ofZ ms +:+ "ms").
Proof.
  unfold timeoutError. rewrite messageOrString_ErrorObj by discriminate.
  rewrite toLowerCase_append. reflexivity.
Qed.

(** X14.  How [/verify-score] answers the errors the queue and the submitter
    raise themselves: a per-item timeout, whatever its length, is answered
    503 with [retryable: true]; the shutting-down error and "zkVerify
    session not available" are SUBMISSION_ERRORs, answered 500. *)
Theorem replies_to_own_errors (ms : Z) :
  (reply_status (errorReply (timeoutError ms)) = 503 /\
   reply_retryable (errorReply (timeoutError ms)) = true /\
   (reply_errorType (errorReply (timeoutError ms)) = TRANSACTION_ERROR \/
    reply_errorType (errorReply (timeoutError ms)) = NETWORK_ERROR)) /\
  errorReply shuttingDownError = mkErrorReply 500 SUBMISSION_ERROR false /\
  errorReply sessionNotAvailable = mkErrorReply 500 SUBMISSION_ERROR false.
Proof.
  split; [|split; reflexivity].
  assert (matchedBeforeProofRule (toLowerCase (messageOrString (timeoutError ms))) = true)
    as Hm.
  { rewrite timeoutError_lower. unfold matchedBeforeProofRule.
    assert (includes ("transaction timeout after " +:+ toLowerCase (ofZ ms +:+ "ms"))
                     "timeout" = true) as ->
      by (apply includes_append_l; reflexivity).
    apply orb_true_r. }
  unfold errorReply, categorizeTransactionError. cbn [falsy timeoutError].
  fold (timeoutError ms).
  destruct (categorizeLower_matched (timeoutError ms) Hm) as [-> | ->]; cbn; auto.
Qed.

(** X15.  The same error is classified twice by the handler, for the reply and
    for the log.  For an [Error] object: when the reply says
    VALIDATION_ERROR so does the log; when the reply says
    VERIFICATION_FAILED the log says VERIFICATION_FAILED or, if the message
    contains "missing" or "invalid", VALIDATION_ERROR. *)
Theorem reply_type_and_log_type (m : string) :
  (categorizeTransactionError (ErrorObj m) = VALIDATION_ERROR ->
   categorizeError (ErrorObj m) = VALIDATION_ERROR) /\
  (categorizeTransactionError (ErrorObj m) = VERIFICATION_FAILED ->
   categorizeError (ErrorObj m)
   = if includes (toLowerCase m) "missing" || includes (toLowerCase m) "invalid"
     then VALIDATION_ERROR else VERIFICATION_FAILED).
Proof.
  destruct (String.eqb_spec m "") as [->|Hne]; [split; discriminate|].
  unfold categorizeTransactionError, categorizeError. cbn [falsy messageOrEmpty].
  rewrite (messageOrString_ErrorObj m Hne).
  set (l := toLowerCase m).
  assert (categorizeLower l = categorizeLower (toLowerCase (messageOrString (ErrorObj m))))
    as Hl by (rewrite (messageOrString_ErrorObj m Hne); reflexivity).
  destruct (matchedBeforeProofRule l) eqn:Hm.
  - assert (categorizeLower l = TRANSACTION_ERROR \/ categorizeLower l = NETWORK_ERROR)
      as [-> | ->].
    { rewrite Hl. apply categorizeLower_matched.
      rewrite (messageOrString_ErrorObj m Hne). exact Hm. }
    all: split; discriminate.
  - assert (categorizeLower l =
              if includes l "proof" || includes l "verification" then VERIFICATION_FAILED
              else if includes l "missing" || includes l "invalid" then VALIDATION_ERROR
              else if includes l "submission" || includes l "session" then SUBMISSION_ERROR
              else UNKNOWN_ERROR) as ->.
    { rewrite Hl. rewrite (categorizeLower_unmatched (ErrorObj m));
        rewrite (messageOrString_ErrorObj m Hne); [reflexivity|exact Hm]. }
    rewrite (orb_comm (includes l "verification")).
    destruct (includes l "proof" || includes l "verification");
      destruct (includes l "missing" || includes l "invalid");
      destruct (includes l "submission" || includes l "session");
      split; intros H; try discriminate H; reflexivity.
Qed.

End ClassifierFacts.

(** ** Invariants of the queue *)

Module QueueFacts.
Import JsString Classifier Queue Observers Examples QueueSpec.

Lemma step_counters (w : World) (i : Input) :
  totalProcessed (tq (fst (step w i)))
  = totalProcessed (tq w) + length (omap completedId (snd (step w i))) /\
  totalFailed (tq (fst (step w i)))
  = totalFailed (tq w) + length (omap failedId (snd (step w i))).
Proof.
  destruct i; unfold_step; repeat case_match; simplify_eq/=; split; lia.
Qed.

(** X1.  The two counters count events: over any history, [totalProcessed]
    grows by the number of [completed] events emitted and [totalFailed] by
    the number of [failed] events. *)
Theorem counters_count_events (w : World) (ins : list Input) :
  totalProcessed (tq (fst (run w ins)))
  = totalProcessed (tq w) + length (omap completedId (snd (run w ins))) /\
  totalFailed (tq (fst (run w ins)))
  = totalFailed (tq w) + length (omap failedId (snd (run w ins))).
Proof.
  revert w. induction ins as [|i ins IH]; intros w; [cbn; lia|].
  cbn [run]. pose proof (step_counters w i) as [H1 H2].
  destruct (step w i) as [w1 eff1]. specialize (IH w1).
  destruct (run w1 ins) as [w2 eff2]. cbn [fst snd] in *.
  rewrite !omap_app, !length_app. lia.
Qed.

Lemma step_timers (w : World) (i : Input) :
  Forall timerOnlyIfPending (callers w) ->
  Forall timerOnlyIfPending (callers (fst (step w i))).
Proof.
  intros H.
  assert (forall f : Caller -> Caller,
            (forall cl, timerOnlyIfPending cl -> timerOnlyIfPending (f cl)) ->
            Forall timerOnlyIfPending (f <$> callers w)) as Hmap.
  { intros f Hf. apply Forall_fmap. eapply Forall_impl; [exact H|]. exact Hf. }
  assert (forall ident r cl, timerOnlyIfPending cl ->
                             timerOnlyIfPending (fireCompleted ident r cl)) as Hc.
  { intros ident r cl Hcl. unfold fireCompleted. destruct (_ && _); [right; reflexivity|auto]. }
  assert (forall ident e cl, timerOnlyIfPending cl ->
                             timerOnlyIfPending (fireFailed ident e cl)) as Hf.
  { intros ident r cl Hcl. unfold fireFailed. destruct (_ && _); [right; reflexivity|auto]. }
  assert (forall cl, timerOnlyIfPending cl -> timerOnlyIfPending (removeListeners cl)) as Hr.
  { intros cl Hcl. exact Hcl. }
  destruct i; unfold_step; repeat case_match; simplify_eq/=; auto.
  all: try (apply Forall_app; split; [assumption|]; repeat constructor).
  all: try (apply Forall_insert; [assumption|right; reflexivity]).
Qed.

(** X3.  From a new queue, at every moment every caller either still has a
    pending promise or has no timer armed: the timeout callback never runs
    for a promise that is already settled. *)
Theorem no_timer_after_settlement (cfg : QueueConfig) (ins : list Input) :
  Forall timerOnlyIfPending (callers (fst (run (newWorld cfg) ins))).
Proof.
  assert (forall w, Forall timerOnlyIfPending (callers w) ->
                    Forall timerOnlyIfPending (callers (fst (run w ins)))) as H.
  { induction ins as [|i ins IH]; intros w Hw; [exact Hw|].
    cbn [run]. pose proof (step_timers w i Hw) as H1.
    destruct (step w i) as [w1 eff1]. specialize (IH w1 H1).
    destruct (run w1 ins) as [w2 eff2]. exact IH. }
  apply H. constructor.
Qed.

Lemma justified_mono (E eff : list Effect) (cl : Caller) :
  justified E cl -> justified (E ++ eff) cl.
Proof.
  unfold justified. destruct (promise cl); [auto| |].
  - intros H. apply elem_of_app. auto.
  - intros [H|H]; [left; apply elem_of_app; auto|auto].
Qed.

Lemma justified_fireCompleted (E eff : list Effect) (ident : string)
    (r : TransactionResult) (cl : Caller) :
  justified E cl ->
  justified (E ++ completed_ ident r :: eff) (fireCompleted ident r cl).
Proof.
  intros H. unfold fireCompleted.
  destruct (String.eqb_spec (caller_id cl) ident) as [Heq|_]; cbn [andb];
    [|apply justified_mono, H].
  destruct (onCompleted cl); [|apply justified_mono, H].
  pose proof (justified_mono E (completed_ ident r :: eff) cl H) as Hm.
  unfold justified in *. cbn [promise caller_id].
  destruct (promise cl); cbn [settle]; [|exact Hm..].
  rewrite Heq. apply elem_of_app. right. constructor.
Qed.

Lemma justified_fireFailed (E eff : list Effect) (ident : string)
    (e : JsError) (cl : Caller) :
  justified E cl ->
  justified (E ++ failed_ ident e :: eff) (fireFailed ident e cl).
Proof.
  intros H. unfold fireFailed.
  destruct (String.eqb_spec (caller_id cl) ident) as [Heq|_]; cbn [andb];
    [|apply justified_mono, H].
  destruct (onFailed cl); [|apply justified_mono, H].
  pose proof (justified_mono E (failed_ ident e :: eff) cl H) as Hm.
  unfold justified in *. cbn [promise caller_id].
  destruct (promise cl); cbn [settle]; [|exact Hm..].
  left. rewrite Heq. apply elem_of_app. right. constructor.
Qed.

Lemma justified_timeout (E : list Effect) (cl : Caller) (ms : Z) :
  justified E cl ->
  justified (E ++ [])
    (mkCaller (caller_id cl) (settle (promise cl) (Rejected (timeoutError ms))) None
              (onCompleted cl) (onFailed cl)).
Proof.
  intros H. apply (justified_mono E []) in H. unfold justified in *.
  cbn [promise caller_id]. destruct (promise cl); cbn [settle]; eauto.
Qed.

Lemma justified_disarm (E : list Effect) (cl : Caller) :
  justified E cl ->
  justified (E ++ [])
    (mkCaller (caller_id cl) (promise cl) None (onCompleted cl) (onFailed cl)).
Proof. intros H. apply (justified_mono E []) in H. exact H. Qed.

Lemma step_justified (E : list Effect) (w : World) (i : Input) :
  Forall (justified E) (callers w) ->
  Forall (justified (E ++ snd (step w i))) (callers (fst (step w i))).
Proof.
  intros H.
  assert (forall eff, Forall (justified (E ++ eff)) (callers w)) as Hmono.
  { intros eff. eapply Forall_impl; [exact H|]. intros cl. apply justified_mono. }
  assert (forall eff ident r,
            Forall (justified (E ++ completed_ ident r :: eff))
                   (fireCompleted ident r <$> callers w)) as Hc.
  { intros eff ident r. apply Forall_fmap. eapply Forall_impl; [exact H|].
    intros cl. apply justified_fireCompleted. }
  assert (forall eff ident e,
            Forall (justified (E ++ failed_ ident e :: eff))
                   (fireFailed ident e <$> callers w)) as Hf.
  { intros eff ident e. apply Forall_fmap. eapply Forall_impl; [exact H|].
    intros cl. apply justified_fireFailed. }
  assert (forall eff, Forall (justified (E ++ eff)) (removeListeners <$> callers w)) as Hr.
  { intros eff. apply Forall_fmap. eapply Forall_impl; [exact H|].
    intros cl Hcl. apply (justified_mono E eff cl Hcl). }
  destruct i; unfold_step; repeat case_match; simplify_eq/=; auto.
  all: try (apply Forall_app; split; [apply Hmono|]; repeat constructor).
  - apply Forall_insert; [apply Hmono|].
    match goal with Hl : callers w !! _ = Some ?cl |- _ =>
      apply (justified_timeout E cl), (Forall_lookup_1 _ _ _ _ H Hl) end.
  - apply Forall_insert; [apply Hmono|].
    match goal with Hl : callers w !! _ = Some ?cl |- _ =>
      apply (justified_disarm E cl), (Forall_lookup_1 _ _ _ _ H Hl) end.
Qed.

(** X4.  From a new queue, a promise is never settled out of thin air: a
    resolved promise carries the result of a [completed_<id>] event emitted
    for its own id, and a rejected one the error of a [failed_<id>] event
    for its own id or a timeout error. *)
Theorem settlements_are_announced (cfg : QueueConfig) (ins : list Input) :
  Forall (justified (snd (run (newWorld cfg) ins)))
         (callers (fst (run (newWorld cfg) ins))).
Proof.
  assert (forall w E, Forall (justified E) (callers w) ->
            Forall (justified (E ++ snd (run w ins))) (callers (fst (run w ins)))) as H.
  { induction ins as [|i ins IH]; intros w E Hw.
    - cbn. rewrite app_nil_r. exact Hw.
    - cbn [run]. pose proof (step_justified E w i Hw) as H1.
      destruct (step w i) as [w1 eff1]. specialize (IH w1 _ H1).
      destruct (run w1 ins) as [w2 eff2]. cbn [fst snd] in *.
      rewrite <- app_assoc in IH. exact IH. }
  apply (H (newWorld cfg) []). constructor.
Qed.

Section RetryBound.
Variable cfg : QueueConfig.

Let bounded (item : QueueItem) : Prop :=
  maxRetries item = retryAttempts cfg /\
  (Z.of_nat (retryCount item) <= Z.max 0 (retryAttempts cfg))%Z.

Let boundedWorker (wk : Worker) : Prop :=
  match wk with
  | AwaitingSubmitter item => bounded item
  | AwaitingDelay _ => True
  end.

Let boundedRetry (n : nat) : Prop :=
  1 <= n /\ (Z.of_nat n <= retryAttempts cfg)%Z.

Let inv (w : World) : Prop :=
  config (tq w) = cfg /\
  Forall bounded (queue (tq w)) /\
  Forall boundedWorker (workers w).

Lemma processLoop_bounded (q : TransactionQueue) :
  config q = cfg -> Forall bounded (queue q) ->
  config (fst (fst (processLoop q))) = cfg /\
  Forall bounded (queue (fst (fst (processLoop q)))) /\
  Forall boundedWorker (option_list (snd (fst (processLoop q)))) /\
  omap retryNumber (snd (processLoop q)) = [].
Proof.
  intros Hc Hq.
  destruct (processLoop_cases q) as [(item & rest & Hi & _ & ->)|[_ ->]]; cbn.
  - rewrite Hi in Hq. inversion Hq; subst. repeat split; auto.
  - repeat split; auto.
Qed.

Lemma processQueue_bounded (q : TransactionQueue) :
  config q = cfg -> Forall bounded (queue q) ->
  config (fst (fst (processQueue q))) = cfg /\
  Forall bounded (queue (fst (fst (processQueue q)))) /\
  Forall boundedWorker (option_list (snd (fst (processQueue q)))) /\
  omap retryNumber (snd (processQueue q)) = [].
Proof.
  intros Hc Hq. unfold processQueue.
  destruct (isProcessing q || (length (queue q) =? 0)%nat || isShuttingDown q).
  - cbn. repeat split; auto.
  - apply processLoop_bounded; assumption.
Qed.

Lemma continueWorker_Forall (Q : Worker -> Prop) (k : nat) (ow : option Worker)
    (ws : list Worker) :
  Forall Q ws -> Forall Q (option_list ow) -> Forall Q (continueWorker k ow ws).
Proof.
  intros Hws How. destruct ow as [wk|]; cbn.
  - apply Forall_insert; [assumption|]. inversion How; assumption.
  - apply Forall_delete. assumption.
Qed.

Lemma step_bounded (w : World) (i : Input) :
  inv w ->
  inv (fst (step w i)) /\ Forall boundedRetry (omap retryNumber (snd (step w i))).
Proof.
  intros (Hc & Hq & Hw). unfold inv.
  destruct i as [stamp suffix now pf signals key net t|k r now|k e|k|c| | |s| |]; cbn [step].
  - unfold submit. destruct (isShuttingDown (tq w)); [cbn; auto|].
    set (item := mkItem _ _ _ _ _ _ _ _).
    assert (Forall bounded (queue (tq w) ++ [item])) as Hq'.
    { apply Forall_app. split; [assumption|]. constructor; [|constructor].
      split; cbn; [congruence|lia]. }
    pose proof (processQueue_bounded (set_queue (queue (tq w) ++ [item]) (tq w)) Hc Hq')
      as (H1 & H2 & H3 & H4).
    destruct (processQueue _) as [[q2 ow] eff]. cbn in *. rewrite H4.
    repeat split; auto. apply Forall_app. auto.
  - unfold submitterResolves.
    destruct (workers w !! k) as [[item|ms]|] eqn:Hk; [|cbn; auto..].
    set (q1 := set_activeTransaction None _).
    pose proof (processLoop_bounded q1 Hc Hq) as (H1 & H2 & H3 & H4).
    destruct (processLoop q1) as [[q2 ow] eff]. cbn in *. rewrite H4.
    repeat split; auto using continueWorker_Forall.
  - unfold submitterRejects.
    destruct (workers w !! k) as [[item|ms]|] eqn:Hk; [|cbn; auto..].
    pose proof (Forall_lookup_1 _ _ _ _ Hw Hk) as [Hmax Hcnt].
    assert (e = Nullish \/ e <> Nullish) as [->|He] by (destruct e; auto; right; congruence).
    { cbn. repeat split; auto. apply Forall_delete. assumption. }
    assert (forall A (a b : A), match e with Nullish => a | _ => b end = b) as Hm
      by (intros; destruct e; congruence).
    rewrite Hm. clear Hm.
    destruct (isNonceConflict (messageOrString e)); cbn [andb].
    + destruct (Z.ltb_spec (Z.of_nat (retryCount item)) (maxRetries item)) as [Hlt|Hge].
      * cbn. rewrite Hmax in Hlt.
        assert (bounded (incrRetryCount item)) as Hb by (split; cbn; [exact Hmax|lia]).
        repeat split; auto.
        -- apply Forall_insert; [assumption|exact I].
        -- constructor; [|constructor]. split; lia.
      * set (q1 := set_totalFailed _ _).
        pose proof (processLoop_bounded q1 Hc Hq) as (H1 & H2 & H3 & H4).
        destruct (processLoop q1) as [[q2 ow] eff]. cbn in *. rewrite H4.
        repeat split; auto using continueWorker_Forall.
    + set (q1 := set_totalFailed _ _).
      pose proof (processLoop_bounded q1 Hc Hq) as (H1 & H2 & H3 & H4).
      destruct (processLoop q1) as [[q2 ow] eff]. cbn in *. rewrite H4.
      repeat split; auto using continueWorker_Forall.
  - unfold delayElapsed.
    destruct (workers w !! k) as [[item|ms]|] eqn:Hk; [cbn; auto| |cbn; auto].
    pose proof (processLoop_bounded (tq w) Hc Hq) as (H1 & H2 & H3 & H4).
    destruct (processLoop (tq w)) as [[q2 ow] eff]. cbn in *. rewrite H4.
    repeat split; auto using continueWorker_Forall.
  - unfold timerFires.
    destruct (callers w !! c) as [cl|]; [|cbn; auto].
    destruct (itemTimeout cl) as [ms|]; [|cbn; auto].
    destruct (findIndex (caller_id cl) (queue (tq w))) as [index|]; cbn;
      repeat split; auto using Forall_delete.
  - cbn. repeat split; auto.
  - unfold shutdown. destruct (isProcessing _); cbn; repeat split; auto.
  - unfold shutdownPoll. destruct (shutdowns w !! s); [|cbn; auto].
    destruct (isProcessing _); cbn; repeat split; auto.
  - cbn. repeat split; auto.
  - unfold resume.
    destruct (negb (isProcessing (tq w)) && negb (isShuttingDown (tq w))); [|cbn; auto].
    pose proof (processQueue_bounded (tq w) Hc Hq) as (H1 & H2 & H3 & H4).
    destruct (processQueue (tq w)) as [[q2 ow] eff]. cbn in *. rewrite H4.
    repeat split; auto. apply Forall_app. auto.
Qed.

Lemma run_bounded (ins : list Input) (w : World) :
  inv w ->
  inv (fst (run w ins)) /\ Forall boundedRetry (omap retryNumber (snd (run w ins))).
Proof.
  revert w. induction ins as [|i ins IH]; intros w Hw; [cbn; auto|].
  cbn [run]. destruct (step_bounded w i Hw) as [H1 He1].
  destruct (step w i) as [w1 eff1]. cbn [fst snd] in *.
  destruct (IH w1 H1) as [H2 He2].
  destruct (run w1 ins) as [w2 eff2]. cbn [fst snd] in *.
  split; [exact H2|]. rewrite omap_app. apply Forall_app. auto.
Qed.

Lemma boundedWorker_inFlight (ws : list Worker) :
  Forall boundedWorker ws -> Forall bounded (omap inFlight ws).
Proof.
  induction 1 as [|[item|ms] ws Hb _ IH]; cbn; [constructor| |exact IH].
  constructor; assumption.
Qed.

(** X5.  From a new queue, over any history: every item the queue holds,
    pending or in flight, has [maxRetries = retryAttempts] and a
    [retryCount] of at most [max 0 retryAttempts], and every [retry] event
    carries a count between 1 and [retryAttempts].  With
    [retryAttempts <= 0] nothing is ever retried. *)
Theorem retries_are_bounded (ins : list Input) :
  let w := fst (run (newWorld cfg) ins) in
  let eff := snd (run (newWorld cfg) ins) in
  Forall (fun item =>
            maxRetries item = retryAttempts cfg /\
            (Z.of_nat (retryCount item) <= Z.max 0 (retryAttempts cfg))%Z)
         (heldItems w) /\
  Forall (fun n => 1 <= n /\ (Z.of_nat n <= retryAttempts cfg)%Z)
         (omap retryNumber eff) /\
  ((retryAttempts cfg <= 0)%Z -> omap retryNumber eff = []).
Proof.
  intros w eff.
  destruct (run_bounded ins (newWorld cfg)) as [(Hc & Hq & Hw) He].
  { split; [reflexivity|]. split; constructor. }
  fold w in Hc, Hq, Hw. fold eff in He.
  split; [|split].
  - unfold heldItems, inFlightItems. apply Forall_app. split; [|exact Hq].
    apply boundedWorker_inFlight, Hw.
  - exact He.
  - intros Hz. destruct (omap retryNumber eff) as [|n l]; [reflexivity|].
    inversion He as [|? ? [H1 H2] _]. lia.
Qed.

End RetryBound.

Lemma step_starts_nothing (w : World) (i : Input) :
  isShuttingDown (tq w) = true ->
  Forall (fun e => startsAttempt e = false) (snd (step w i)).
Proof.
  intros H. destruct i; unfold_step; repeat case_match; simplify_eq/=;
    repeat constructor; congruence.
Qed.

(** X6.  Once [isShuttingDown] is set, no attempt is ever started again: no
    later history emits [processing] or calls the submitter, whatever is
    still pending. *)
Theorem no_attempt_after_shutdown (w : World) (ins : list Input) :
  isShuttingDown (tq w) = true ->
  Forall (fun e => startsAttempt e = false) (snd (run w ins)).
Proof.
  revert w. induction ins as [|i ins IH]; intros w H; [constructor|].
  cbn [run]. pose proof (step_starts_nothing w i H) as H1.
  pose proof (step_keeps_shutting_down w i H) as H2.
  destruct (step w i) as [w1 eff1]. specialize (IH w1 H2).
  destruct (run w1 ins) as [w2 eff2]. cbn [fst snd] in *.
  apply Forall_app. auto.
Qed.

Lemma no_attempt_after_shutdown_witness :
  let w := fst (run threePendingOneActive [Shutdown]) in
  length (queue (tq w)) = 3 /\
  Forall (fun e => startsAttempt e = false)
         (snd (run w [SubmitterResolves 0 okResult 9; ShutdownPoll 0; Resume;
                      submitAt 5 "e"])).
Proof.
  intros w. split; [vm_compute; reflexivity|].
  apply (no_attempt_after_shutdown w). vm_compute. reflexivity.
Defined.

(** X7.  Draining.  With [isShuttingDown] set and one attempt in flight, the
    success of that attempt ends the worker although items are pending;
    the waiting [shutdown()] then completes at its next poll, removing the
    listeners of every caller.  The pending items stay in the list. *)
Theorem shutdown_drains (w : World) (item : QueueItem) (st : QueueStatus)
    (r : TransactionResult) (now : Z) :
  isShuttingDown (tq w) = true ->
  workers w = [AwaitingSubmitter item] ->
  shutdowns w = [st] ->
  let w1 := fst (submitterResolves 0 r now w) in
  let w2 := fst (shutdownPoll 0 w1) in
  workers w1 = [] /\ isProcessing (tq w1) = false /\
  snd (submitterResolves 0 r now w) = [completed_ (id item) r; completed (id item) r] /\
  snd (shutdownPoll 0 w1) = [shutdownComplete st] /\
  shutdowns w2 = [] /\
  queue (tq w2) = queue (tq w) /\
  Forall (fun cl => onCompleted cl = false /\ onFailed cl = false) (callers w2).
Proof.
  intros Hs Hw Hsd w1 w2. subst w2 w1.
  unfold submitterResolves. rewrite Hw. cbn [lookup list_lookup].
  set (q1 := set_activeTransaction None _).
  destruct (processLoop_cases q1) as [(next & rest & _ & Hf & _)|[_ ->]].
  { cbn in Hf. congruence. }
  cbn. unfold shutdownPoll. cbn. rewrite Hsd. cbn.
  repeat split. apply Forall_fmap, Forall_fmap, Forall_true. intros cl. split; reflexivity.
Qed.

Lemma shutdown_drains_witness :
  let w := fst (run threePendingOneActive [Shutdown]) in
  let w1 := fst (submitterResolves 0 okResult 9 w) in
  workers w1 = [] /\ length (queue (tq (fst (shutdownPoll 0 w1)))) = 3.
Proof.
  intros w w1.
  destruct (shutdown_drains w (itemOf 1 "a" 0)
              (getStatus (set_isShuttingDown true (tq threePendingOneActive)))
              okResult 9) as (Hw & _ & _ & _ & _ & Hq & _);
    [vm_compute; reflexivity..|].
  split; [exact Hw|]. fold w1 in Hq. rewrite Hq. vm_compute. reflexivity.
Defined.

(** X8.  [pause()] does not stop a worker, it only lowers [isProcessing]: a
    [submit] that follows starts another invocation of the loop, which
    attempts the head of the pending list at once, next to whatever
    attempts are still in flight. *)
Theorem pause_then_submit_starts_a_worker (w : World) (ident : string) (now : Z)
    (pf : Json) (signals : list Json) (key : VerificationKey) (net : Network)
    (t : option Z) :
  isShuttingDown (tq w) = false ->
  let item := mkItem ident pf signals key net now 0 (retryAttempts (config (tq w))) in
  let w1 := fst (pause w) in
  let w2 := snd (fst (submit ident now pf signals key net t w1)) in
  exists head rest,
    queue (tq w) ++ [item] = head :: rest /\
    workers w2 = workers w ++ [AwaitingSubmitter head] /\
    queue (tq w2) = rest /\
    inFlightItems w2 = inFlightItems w ++ [head] /\
    snd (submit ident now pf signals key net t w1)
    = [enqueued ident (S (length (queue (tq w)))); processing (id head) (length rest);
       submitterSubmit head].
Proof.
  intros Hs item w1 w2. subst w2 w1. unfold pause, submit.
  cbn [fst snd tq workers callers shutdowns set_isProcessing isShuttingDown queue config].
  rewrite Hs. fold item.
  set (q1 := set_queue _ _).
  assert (processQueue q1 = processLoop (set_isProcessing true q1)) as ->.
  { unfold processQueue. subst q1. cbn. rewrite Hs, length_app. cbn.
    replace (length (queue (tq w)) + 1 =? 0)%nat with false
      by (symmetry; apply Nat.eqb_neq; lia).
    reflexivity. }
  destruct (processLoop_cases (set_isProcessing true q1))
    as [(head & rest & Hq & _ & ->)|[[Hq|Hf] _]].
  - exists head, rest. cbn in Hq. cbn. unfold inFlightItems. cbn.
    rewrite length_app, omap_app, Nat.add_1_r. cbn. repeat split. exact Hq.
  - cbn in Hq. destruct (queue (tq w)); discriminate Hq.
  - cbn in Hf. congruence.
Qed.

Lemma pause_then_submit_starts_a_worker_witness :
  let w := fst (run (newWorld testConfig) [submitAt 1 "a"]) in
  exists head rest,
    queue (tq w) ++ [itemOf 2 "b" 0] = head :: rest /\
    inFlightItems (snd (fst (submit (makeId 2 "b") 2 "proof" ["signal"] vkHash testnet None
                                    (fst (pause w)))))
    = inFlightItems w ++ [head].
Proof.
  intros w.
  destruct (pause_then_submit_starts_a_worker w (makeId 2 "b") 2 "proof" ["signal"]
              vkHash testnet None) as (head & rest & Hq & _ & _ & Hf & _);
    [reflexivity|].
  exists head, rest. split; [exact Hq|exact Hf].
Defined.

(** X9.  The submitter rejects with [null] or [undefined]: reading
    [error.message] throws inside the [catch] block, so the invocation of
    [processQueue] ends through [finally] without emitting anything.  The
    item is neither re-queued nor counted as failed, and (its id being
    unique) nothing that happens later settles its promise. *)
Theorem null_rejection_strands_item (w : World) (k : nat) (item : QueueItem)
    (ins : list Input) :
  workers w !! k = Some (AwaitingSubmitter item) ->
  Forall (fun it => id it <> id item) (queue (tq w)) ->
  Forall (notAttempted (id item)) (delete k (workers w)) ->
  id item ∉ submittedIds ins ->
  let w1 := fst (submitterRejects k Nullish w) in
  snd (submitterRejects k Nullish w) = [] /\
  (isProcessing (tq w1) = false /\ activeTransaction (tq w1) = None /\
   totalFailed (tq w1) = totalFailed (tq w) /\ queue (tq w1) = queue (tq w) /\
   workers w1 = delete k (workers w)) /\
  (id item ∉ omap settledId (snd (run w1 ins))) /\
  samePromises (id item) (callers w) (callers (fst (run w1 ins))).
Proof.
  intros Hk Hq Hw Hins w1. subst w1. unfold submitterRejects. rewrite Hk.
  cbn [fst snd]. split; [reflexivity|]. split; [repeat split|].
  set (w1 := mkWorld _ _ _ _).
  assert (absent (id item) w1) as Ha by (split; assumption).
  destruct (run_absent (id item) ins w1 Ha Hins) as (_ & He & Hc).
  split; [exact He|exact Hc].
Qed.

Lemma null_rejection_strands_item_witness :
  let w := fst (run (newWorld testConfig) [submitAt 1 "a"; submitAt 2 "b"]) in
  let w1 := fst (submitterRejects 0 Nullish w) in
  (promise <$> callers (fst (run w1 [submitAt 3 "c"; SubmitterResolves 0 okResult 9;
                                     TimerFires 0])) !! 0) = Some Pending.
Proof.
  intros w w1.
  destruct (null_rejection_strands_item w 0 (itemOf 1 "a" 0)
              [submitAt 3 "c"; SubmitterResolves 0 okResult 9; TimerFires 0])
    as (_ & _ & _ & Hc).
  - vm_compute. reflexivity.
  - repeat constructor. vm_compute. discriminate.
  - constructor.
  - apply (bool_decide_unpack _). vm_compute. reflexivity.
  - destruct (Hc 0 (mkCaller "tx_1_a" Pending (Some 5000%Z) true true))
      as (cl' & Hcl & _ & Hp); [vm_compute; reflexivity|reflexivity|].
    assert (forall o : option Caller, o = Some cl' -> promise <$> o = Some Pending) as G
      by (intros ? ->; cbn; rewrite Hp; reflexivity).
    apply G, Hcl.
Defined.

Lemma findIndex_Some (x : string) (l : list QueueItem) (i : nat) :
  findIndex x l = Some i ->
  exists item,
    l !! i = Some item /\ id item = x /\
    Forall (fun it => id it <> x) (take i l).
Proof.
  revert i. induction l as [|h l IH]; intros i H; [discriminate H|].
  cbn in H. destruct (String.eqb_spec (id h) x) as [Heq|Hne].
  - injection H as <-. exists h. cbn. repeat split; auto.
  - destruct (findIndex x l) as [n|]; [|discriminate H]. injection H as <-.
    destruct (IH n eq_refl) as (item & Hl & Hid & Hf).
    exists item. cbn. repeat split; auto.
Qed.

Lemma findIndex_elem (x : string) (l : list QueueItem) :
  x ∈ (id <$> l) -> is_Some (findIndex x l).
Proof.
  induction l as [|h l IH]; cbn; intros H; [inversion H|].
  destruct (String.eqb_spec (id h) x) as [Heq|Hne]; [eauto|].
  apply elem_of_cons in H as [H|H]; [congruence|].
  destruct (IH H) as [n ->]. eauto.
Qed.

(** X10.  The timer of a caller whose id is on the pending list always finds
    it: the first item with that id is removed, the items before and
    after it keep their order, the promise (if still pending) is rejected
    with the timeout error, and the queue reports nothing: no event is
    emitted and [totalFailed] does not move. *)
Theorem timer_removes_first_match (w : World) (c : nat) (cl : Caller) (ms : Z) :
  callers w !! c = Some cl ->
  itemTimeout cl = Some ms ->
  caller_id cl ∈ (id <$> queue (tq w)) ->
  let q := queue (tq w) in
  let w' := fst (timerFires c w) in
  exists index item,
    q !! index = Some item /\ id item = caller_id cl /\
    Forall (fun it => id it <> caller_id cl) (take index q) /\
    queue (tq w') = take index q ++ drop (S index) q /\
    S (length (queue (tq w'))) = length q /\
    (promise <$> callers w' !! c) = Some (settle (promise cl) (Rejected (timeoutError ms))) /\
    snd (timerFires c w) = [] /\
    totalFailed (tq w') = totalFailed (tq w).
Proof.
  intros Hc Ht Hin q w'. subst w' q.
  destruct (findIndex_elem _ _ Hin) as [index Hi].
  destruct (findIndex_Some _ _ _ Hi) as (item & Hl & Hid & Hf).
  exists index, item. unfold timerFires. rewrite Hc, Ht, Hi. cbn.
  pose proof (lookup_lt_Some _ _ _ Hl) as Hlt.
  pose proof (lookup_lt_Some _ _ _ Hc) as Hclt.
  repeat split; auto.
  - apply delete_take_drop.
  - rewrite length_delete by eauto. lia.
  - rewrite list_lookup_insert_eq by exact Hclt. reflexivity.
Qed.

Lemma timer_removes_first_match_witness :
  exists index item,
    queue (tq threePendingOneActive) !! index = Some item /\
    id item = "tx_3_c" /\
    S (length (queue (tq (fst (timerFires 2 threePendingOneActive))))) = 3.
Proof.
  destruct (timer_removes_first_match threePendingOneActive 2
              (mkCaller "tx_3_c" Pending (Some 5000%Z) true true) 5000)
    as (index & item & Hl & Hid & _ & _ & Hlen & _).
  - vm_compute. reflexivity.
  - reflexivity.
  - apply (bool_decide_unpack _). vm_compute. reflexivity.
  - exists index, item. split; [exact Hl|]. split; [exact Hid|exact Hlen].
Defined.

End QueueFacts.

(** ** Connection handling and the request gate *)

Module ServerFacts.
Import JsString Classifier Queue Server Http Examples.

Lemma reconnectDelay_range (n : nat) :
  1 <= n -> (1000 <= reconnectDelay n <= 30000)%Z.
Proof.
  intros Hn. unfold reconnectDelay, BASE_RECONNECT_DELAY.
  assert (1 <= 2 ^ (Z.of_nat n - 1))%Z as H1.
  { change 1%Z with (2 ^ 0)%Z at 1. apply Z.pow_le_mono_r; lia. }
  lia.
Qed.

(** X16.  The delay before a reconnection attempt is never shorter than the
    base delay nor longer than the cap, and a later attempt never waits
    less than an earlier one. *)
Theorem reconnectDelay_bounds (n m : nat) :
  1 <= n -> n <= m ->
  (BASE_RECONNECT_DELAY <= reconnectDelay n <= 30000)%Z /\
  (reconnectDelay n <= reconnectDelay m)%Z.
Proof.
  intros Hn Hm. unfold reconnectDelay, BASE_RECONNECT_DELAY.
  assert (1 <= 2 ^ (Z.of_nat n - 1))%Z as H1.
  { change 1%Z with (2 ^ 0)%Z at 1. apply Z.pow_le_mono_r; lia. }
  assert (2 ^ (Z.of_nat n - 1) <= 2 ^ (Z.of_nat m - 1))%Z as H2
    by (apply Z.pow_le_mono_r; lia).
  lia.
Qed.

Lemma reconnectDelay_bounds_witness :
  (1000 <= reconnectDelay 3 <= 30000)%Z /\ (reconnectDelay 3 <= reconnectDelay 7)%Z.
Proof. apply (reconnectDelay_bounds 3 7); lia. Defined.

Lemma connectionStep_attempts (c : Connection) (ev : ConnectionEvent) :
  reconnectionAttempts c <= MAX_RECONNECTION_ATTEMPTS ->
  reconnectionAttempts (fst (connectionStep c ev)) <= MAX_RECONNECTION_ATTEMPTS /\
  Forall (fun d => 1000 <= d <= 30000)%Z (option_list (snd (connectionStep c ev))).
Proof.
  intros H. unfold MAX_RECONNECTION_ATTEMPTS in *.
  assert (forall c0, reconnectionAttempts c0 <= 10 ->
            reconnectionAttempts (fst (attemptReconnection c0)) <= 10 /\
            Forall (fun d => 1000 <= d <= 30000)%Z
                   (option_list (snd (attemptReconnection c0)))) as Ha.
  { intros c0 H0. unfold attemptReconnection, MAX_RECONNECTION_ATTEMPTS.
    destruct (isReconnecting c0); [cbn; auto|].
    destruct (Nat.leb_spec 10 (reconnectionAttempts c0)); [cbn; auto|].
    cbn. split; [lia|]. constructor; [|constructor].
    apply reconnectDelay_range. lia. }
  destruct ev; cbn [connectionStep].
  - apply Ha. exact H.
  - cbn. split; [lia|constructor].
  - cbn. split; [lia|constructor].
  - cbn. split; [exact H|constructor].
  - apply Ha. exact H.
Qed.

(** X17.  Whatever the provider reports and however the attempts end, in
    whatever order, [reconnectionAttempts] never exceeds
    [MAX_RECONNECTION_ATTEMPTS], every delay that is started lies between
    1000 and 30000 ms, and a ['disconnected'] event that arrives while a
    reconnection is in progress starts nothing and leaves the counter
    alone. *)
Theorem reconnection_counter_bounded (c : Connection) (evs : list ConnectionEvent) :
  reconnectionAttempts c <= MAX_RECONNECTION_ATTEMPTS ->
  reconnectionAttempts (fst (connectionRun c evs)) <= MAX_RECONNECTION_ATTEMPTS /\
  Forall (fun d => 1000 <= d <= 30000)%Z (snd (connectionRun c evs)) /\
  (isReconnecting c = true ->
   connectionStep c ProviderDisconnected
   = (mkConnection None true (reconnectionAttempts c), None)).
Proof.
  intros H. split; [|split].
  - revert c H. induction evs as [|ev evs IH]; intros c H; [exact H|].
    cbn [connectionRun]. destruct (connectionStep_attempts c ev H) as [H1 _].
    destruct (connectionStep c ev) as [c1 d]. specialize (IH c1 H1).
    destruct (connectionRun c1 evs) as [c2 ds]. exact IH.
  - revert c H. induction evs as [|ev evs IH]; intros c H; [constructor|].
    cbn [connectionRun]. destruct (connectionStep_attempts c ev H) as [H1 Hd].
    destruct (connectionStep c ev) as [c1 d]. specialize (IH c1 H1).
    destruct (connectionRun c1 evs) as [c2 ds]. cbn [fst snd] in *.
    apply Forall_app. auto.
  - intros Hr. cbn. unfold onDisconnected, attemptReconnection. cbn. rewrite Hr.
    reflexivity.
Qed.

Lemma reconnection_counter_bounded_witness :
  reconnectionAttempts
    (fst (connectionRun (mkConnection None false 9)
            [ProviderDisconnected; SessionInitFailed; ScheduledAttempt;
             ProviderDisconnected])) <= 10.
Proof.
  apply (reconnection_counter_bounded (mkConnection None false 9)).
  unfold MAX_RECONNECTION_ATTEMPTS. cbn. lia.
Defined.

(** X18.  [/verify-score] hands a request to the queue exactly when the request
    is valid, the queue exists and [/health] would answer 200; what it
    then awaits is [submit] called with the cached verification key, the
    server's network and no per-call timeout, and in that situation the
    submitter's guard lets the proof through. *)
Theorem verifyScore_reaches_queue (stamp : Z) (suffix : string) (now : Z)
    (pf : option Json) (signals : option (list Json)) (srv : ServerState) :
  ((exists o w' eff,
      verifyScore stamp suffix now pf signals srv = AwaitsSubmit o w' eff) <->
   (validateProofAndSignals pf signals = None /\
    is_Some (transactionQueue srv) /\
    healthStatusCode (connection srv) = 200)) /\
  (forall w,
     validateProofAndSignals pf signals = None ->
     transactionQueue srv = Some w ->
     healthStatusCode (connection srv) = 200 ->
     verifyScore stamp suffix now pf signals srv
     = (let '(o, w', eff) :=
          submit (makeId stamp suffix) now (default "" pf) (default [] signals)
                 (cachedVK srv) (serverNetwork srv) None w in
        AwaitsSubmit o w' eff) /\
     submitProofTransaction (connection srv) = None).
Proof.
  unfold verifyScore, healthStatusCode, healthStatus, submitProofTransaction.
  destruct (validateProofAndSignals pf signals) as [err|].
  { split; [|intros w H; discriminate H].
    split; [intros (o & w' & eff & H); discriminate H|intros (H & _); discriminate H]. }
  destruct (transactionQueue srv) as [w|].
  2:{ split; [|intros w _ H; discriminate H].
      split; [intros (o & w' & eff & H); discriminate H|].
      intros (_ & [w H] & _). discriminate H. }
  destruct (sessionAvailable (connection srv)); cbn [negb].
  - split.
    + destruct (submit _ _ _ _ _ _ _ _) as [[o w'] eff]. split; eauto.
    + intros w0 _ Hw _. injection Hw as <-. split; reflexivity.
  - split.
    + split.
      * intros (o & w' & eff & H). destruct (isReconnecting (connection srv)); discriminate H.
      * intros (_ & _ & H). destruct (isReconnecting (connection srv)); discriminate H.
    + intros w0 _ _ H. destruct (isReconnecting (connection srv)); discriminate H.
Qed.


End ServerFacts.

(** ** Network configuration *)

Module NetworkConfigFacts.
Import NetworkConfig.

Lemma envOr_nonempty (env : Env) (k d : string) : d <> "" -> envOr env k d <> "".
Proof.
  intros Hd. unfold envOr. destruct (env !! k) as [v|]; [|exact Hd].
  destruct (String.eqb_spec v ""); [exact Hd|assumption].
Qed.

Lemma envOr_set (env : Env) (k d v : string) :
  env !! k = Some v -> v <> "" -> envOr env k d = v.
Proof.
  intros Hk Hv. unfold envOr. rewrite Hk.
  destruct (String.eqb_spec v ""); [contradiction|reflexivity].
Qed.

(** X19.  [getNetworkConfig] returns a configuration only for the networks
    "testnet" and "mainnet" (an unset or empty ZKVERIFY_NETWORK counts as
    "testnet"); its name, explorer, seed-phrase variable and faucet are
    those of the table, whatever the environment says; its [websocket] and
    [rpc] are the overrides when these are set and not empty, the table's
    otherwise, and so are never empty.  It throws exactly when the name is
    neither one of the two networks nor a member inherited from
    [Object.prototype]; for such a member it returns the object that
    holds the two overrides and nothing else, each present only when set
    and not empty. *)
Theorem getNetworkConfig_result (env : Env) :
  let network := envOr env "ZKVERIFY_NETWORK" "testnet" in
  match getNetworkConfig env with
  | Config c =>
      exists n,
        network = match n with Queue.testnet => "testnet" | Queue.mainnet => "mainnet" end /\
        name c = name (networkEntry n) /\
        explorer c = explorer (networkEntry n) /\
        seedPhraseEnvVar c = seedPhraseEnvVar (networkEntry n) /\
        faucetUrl c = faucetUrl (networkEntry n) /\
        websocket c = envOr env "ZKVERIFY_RPC_WSS" (websocket (networkEntry n)) /\
        rpc c = envOr env "ZKVERIFY_RPC_HTTPS" (rpc (networkEntry n)) /\
        websocket c <> "" /\ rpc c <> ""
  | Overrides ws r =>
      In network objectPrototypeKeys /\
      ws = envTruthy env "ZKVERIFY_RPC_WSS" /\
      r = envTruthy env "ZKVERIFY_RPC_HTTPS"
  | ConfigError e =>
      network <> "testnet" /\ network <> "mainnet" /\
      ~ In network objectPrototypeKeys /\
      e = ErrorObj ("Invalid network: " +:+ network +:+ ". Must be 'testnet' or 'mainnet'")
  end.
Proof.
  intros network. unfold getNetworkConfig. fold network. unfold NETWORKS.
  destruct (String.eqb_spec network "testnet") as [Ht|Ht].
  { exists Queue.testnet. cbn. repeat split; auto; apply envOr_nonempty; discriminate. }
  destruct (String.eqb_spec network "mainnet") as [Hm|Hm].
  { exists Queue.mainnet. cbn. repeat split; auto; apply envOr_nonempty; discriminate. }
  destruct (existsb (String.eqb network) objectPrototypeKeys) eqn:He.
  - apply existsb_exists in He as (k & Hin & Hk). apply String.eqb_eq in Hk. subst k.
    repeat split. exact Hin.
  - repeat split; auto. intros Hin.
    assert (existsb (String.eqb network) objectPrototypeKeys = true) as He'.
    { apply existsb_exists. exists network. split; [exact Hin|apply String.eqb_refl]. }
    congruence.
Qed.

(** X20.  Setting a network's seed-phrase variable to a non-empty value makes
    [getSeedPhrase] return exactly that value for this network and changes
    nothing for the other one; with the variable unset or empty it throws,
    naming the variable. *)
Theorem getSeedPhrase_reads_own_variable (n : Queue.Network) (env : Env) (v : string) :
  v <> "" ->
  let var := seedPhraseEnvVar (networkEntry n) in
  getSeedPhrase n (<[var := v]> env) = inl v /\
  (forall n', n' <> n -> getSeedPhrase n' (<[var := v]> env) = getSeedPhrase n' env) /\
  getSeedPhrase n (delete var env) = inr (ErrorObj (var +:+ " not found in environment")) /\
  getSeedPhrase n (<[var := ""]> env) = inr (ErrorObj (var +:+ " not found in environment")).
Proof.
  intros Hv var. subst var. unfold getSeedPhrase, envTruthy, Env in *.
  split; [|split; [|split]].
  - rewrite lookup_insert_eq. destruct (String.eqb_spec v ""); [contradiction|reflexivity].
  - intros n' Hn. rewrite lookup_insert_ne; [reflexivity|].
    destruct n, n'; cbn; congruence.
  - rewrite lookup_delete_eq. reflexivity.
  - rewrite lookup_insert_eq. reflexivity.
Qed.

Lemma getSeedPhrase_reads_own_variable_witness :
  getSeedPhrase Queue.testnet
    (<["ZKVERIFY_TESTNET_SEED_PHRASE" :=
         "one two three four five six seven eight nine ten eleven twelve"]> ∅)
  = inl "one two three four five six seven eight nine ten eleven twelve".
Proof.
  apply (getSeedPhrase_reads_own_variable Queue.testnet ∅
           "one two three four five six seven eight nine ten eleven twelve").
  discriminate.
Defined.

End NetworkConfigFacts.
